(** * Text normalisation, chunking and export of the TTS service

    A shallow embedding of [utils/text_processor.py] (class [TextProcessor])
    and [utils/tts_engine.py] (class [TTSEngine]), with the properties the
    specification states about them.

    Python [str] values are modelled as lists of characters.  A character is a
    code point below 256 (a Rocq [ascii], read as Latin-1); the classes [\s]
    and [\w] of [re] and [str.isspace] are the tables CPython uses for these
    code points. *)

From Stdlib Require Import String Ascii List Bool Arith ZArith NArith Lia.
From Stdlib Require Import Permutation Sorted DecimalString.
Import ListNotations.

Local Open Scope list_scope.

(** ** Python values and primitives *)

Module Py.

Definition pystr := list ascii.

Definition txt (s : string) : pystr := list_ascii_of_string s.

Definition len (s : pystr) : Z := Z.of_nat (List.length s).

(** Exceptions the modelled code can raise. *)
Inductive exn := TypeError | ValueError | OSError | SynthesisError.

Inductive result (A : Type) :=
| Ok (a : A)
| Raise (e : exn).
Arguments Ok {A} a.
Arguments Raise {A} e.

Definition bind {A B} (r : result A) (k : A -> result B) : result B :=
  match r with
  | Ok a => k a
  | Raise e => Raise e
  end.

(** An argument as a caller may pass it: [None], a [str], or any other
    object, of which the code only observes [bool(x)] and [str(x)]. *)
Inductive pyobj :=
| PyNone
| PyStr (s : pystr)
| PyOther (truthy : bool) (repr : pystr).

(** [bool(x)] *)
Definition truthy (x : pyobj) : bool :=
  match x with
  | PyNone => false
  | PyStr [] => false
  | PyStr (_ :: _) => true
  | PyOther b _ => b
  end.

(** [str(x)] *)
Definition str (x : pyobj) : pystr :=
  match x with
  | PyNone => txt "None"
  | PyStr s => s
  | PyOther _ r => r
  end.

(** [str(n)] for an [int]. *)
Definition str_of_int (n : Z) : pystr :=
  list_ascii_of_string (NilZero.string_of_int (Z.to_int n)).

(** [c.isspace()], which is also the class [\s] of a [str] pattern:
    TAB..CR, FS..US, SPACE, NEL and NBSP. *)
Definition isspace (c : ascii) : bool :=
  let n := N_of_ascii c in
  ((9 <=? n) && (n <=? 13) || (28 <=? n) && (n <=? 32)
   || (n =? 133) || (n =? 160))%N.

(** The class [\w] of a [str] pattern: alphanumeric or underscore. *)
Definition isword (c : ascii) : bool :=
  let n := N_of_ascii c in
  ((48 <=? n) && (n <=? 57) || (65 <=? n) && (n <=? 90) || (n =? 95)
   || (97 <=? n) && (n <=? 122)
   || (n =? 170) || (n =? 178) || (n =? 179) || (n =? 181) || (n =? 185)
   || (n =? 186) || (188 <=? n) && (n <=? 190)
   || (192 <=? n) && (n <=? 214) || (216 <=? n) && (n <=? 246)
   || (248 <=? n))%N.

Definition space : ascii := " "%char.
Definition dot : ascii := "."%char.

(** [s.lstrip()], [s.rstrip()] and [s.strip()] *)
Fixpoint lstrip (s : pystr) : pystr :=
  match s with
  | [] => []
  | c :: s' => if isspace c then lstrip s' else s
  end.

Fixpoint rstrip (s : pystr) : pystr :=
  match s with
  | [] => []
  | c :: s' =>
      match rstrip s' with
      | [] => if isspace c then [] else [c]
      | r => c :: r
      end
  end.

Definition strip (s : pystr) : pystr := lstrip (rstrip s).

(** [s.split()]: the maximal runs of non-whitespace characters.
    [words_aux s] is the run [s] starts with and the runs after it. *)
Definition cons_nonempty (w : pystr) (ws : list pystr) : list pystr :=
  match w with
  | [] => ws
  | _ :: _ => w :: ws
  end.

Fixpoint words_aux (s : pystr) : pystr * list pystr :=
  match s with
  | [] => ([], [])
  | c :: s' =>
      let (w, ws) := words_aux s' in
      if isspace c then ([], cons_nonempty w ws) else (c :: w, ws)
  end.

Definition split_ws (s : pystr) : list pystr :=
  let (w, ws) := words_aux s in cons_nonempty w ws.

(** [sep.join(l)] *)
Fixpoint join (sep : pystr) (l : list pystr) : pystr :=
  match l with
  | [] => []
  | [w] => w
  | w :: l' => w ++ sep ++ join sep l'
  end.

(** [s.replace(a, b)] for single characters [a] and [b]. *)
Definition replace (a b : ascii) (s : pystr) : pystr :=
  map (fun c => if Ascii.eqb c a then b else c) s.

(** [s.split(sep)] for a single character [sep]: always at least one
    piece, empty pieces kept. *)
Fixpoint split_on (sep : ascii) (s : pystr) : list pystr :=
  match s with
  | [] => [[]]
  | c :: s' =>
      match split_on sep s' with
      | [] => [[]]
      | p :: ps => if Ascii.eqb c sep then [] :: p :: ps else (c :: p) :: ps
      end
  end.

(** [s.rfind(c)] for a single character: the highest index, or [-1]. *)
Fixpoint rfind (c : ascii) (s : pystr) : Z :=
  match s with
  | [] => -1
  | d :: s' =>
      let r := rfind c s' in
      if (0 <=? r)%Z then (r + 1)%Z
      else if Ascii.eqb d c then 0%Z else (-1)%Z
  end.

(** [s[:n]], with Python's reading of a negative bound. *)
Definition slice_to (s : pystr) (n : Z) : pystr :=
  if (0 <=? n)%Z then firstn (Z.to_nat n) s
  else firstn (Z.to_nat (len s + n)) s.

(** [s[-1]] of a non-empty string. *)
Definition last_char (s : pystr) : option ascii :=
  match rev s with
  | [] => None
  | c :: _ => Some c
  end.

(** [re.sub(r'\s+', ' ', s)].  [in_run] tells that the previous character
    belongs to the whitespace run being replaced. *)
Fixpoint re_sub_ws (in_run : bool) (s : pystr) : pystr :=
  match s with
  | [] => []
  | c :: s' =>
      if isspace c
      then if in_run then re_sub_ws true s' else space :: re_sub_ws true s'
      else c :: re_sub_ws false s'
  end.

(** The two shapes of pattern [expand_abbreviations] builds around the
    escaped abbreviation. *)
Inductive pattern_kind :=
| Lookaround      (* (?<!\w) abbrev (?!\w) *)
| WordBoundary.   (* \b abbrev \b *)

Definition isword_opt (c : option ascii) : bool :=
  match c with
  | Some c => isword c
  | None => false
  end.

(** [\b] between [before] and [after] ([None] at either end of the
    string). *)
Definition word_boundary (before after : option ascii) : bool :=
  xorb (isword_opt before) (isword_opt after).

Fixpoint starts_with (lit s : pystr) : bool :=
  match lit, s with
  | [], _ => true
  | _ :: _, [] => false
  | a :: lit', c :: s' => Ascii.eqb a c && starts_with lit' s'
  end.

(** Does the pattern match at the current position?  [prev] is the
    character before it and [s] the rest of the string. *)
Definition match_here (k : pattern_kind) (lit : pystr)
           (prev : option ascii) (s : pystr) : bool :=
  let next := hd_error (skipn (List.length lit) s) in
  starts_with lit s &&
  match k with
  | Lookaround => negb (isword_opt prev) && negb (isword_opt next)
  | WordBoundary =>
      word_boundary prev (hd_error lit) && word_boundary (last_char lit) next
  end.

(** [re.sub(pattern, repl, s)] for such a pattern with a non-empty literal
    and a replacement without escapes: leftmost non-overlapping matches,
    scanning resumes after each match.  [skip] counts the characters of the
    current match still to be consumed. *)
Fixpoint re_sub_scan (k : pattern_kind) (lit repl : pystr)
         (prev : option ascii) (skip : nat) (s : pystr) : pystr :=
  match s with
  | [] => []
  | c :: s' =>
      match skip with
      | S n => re_sub_scan k lit repl (Some c) n s'
      | O =>
          if match_here k lit prev s
          then repl ++ re_sub_scan k lit repl (Some c) (List.length lit - 1) s'
          else c :: re_sub_scan k lit repl (Some c) 0 s'
      end
  end.

Definition re_sub (k : pattern_kind) (lit repl s : pystr) : pystr :=
  re_sub_scan k lit repl None 0 s.

(** [sorted(l, key=..., reverse=True)]: descending and stable, so entries
    with equal keys keep their order. *)
Fixpoint insert_desc {A} (key : A -> nat) (x : A) (l : list A) : list A :=
  match l with
  | [] => [x]
  | y :: l' => if key x <? key y then y :: insert_desc key x l' else x :: l
  end.

Definition sorted_desc {A} (key : A -> nat) (l : list A) : list A :=
  fold_right (insert_desc key) [] l.

End Py.

Import Py.

(** ** [utils/text_processor.py] *)

Module TextProcessor.

Definition MIN_TEXT_LENGTH : Z := 3.

(** The dictionary [ABBREVIATIONS], in insertion order. *)
Definition ABBREVIATIONS : list (pystr * pystr) :=
  map (fun p => (txt (fst p), txt (snd p)))
    [ ("Dr.", "Doctor"); ("Mr.", "Mister"); ("Mrs.", "Missus");
      ("Ms.", "Miss"); ("Prof.", "Professor"); ("e.g.", "for example");
      ("i.e.", "that is"); ("etc.", "etcetera"); ("vs.", "versus");
      ("v.", "versus"); ("vs", "versus"); ("v", "versus");
      ("approx.", "approximately"); ("min.", "minimum");
      ("max.", "maximum"); ("No.", "Number"); ("no.", "number");
      ("St.", "Street"); ("Ave.", "Avenue"); ("Blvd.", "Boulevard");
      ("Rd.", "Road"); ("Ltd.", "Limited"); ("Inc.", "Incorporated");
      ("Corp.", "Corporation"); ("Co.", "Company"); ("Jan.", "January");
      ("Feb.", "February"); ("Mar.", "March"); ("Apr.", "April");
      ("Aug.", "August"); ("Sep.", "September"); ("Sept.", "September");
      ("Oct.", "October"); ("Nov.", "November"); ("Dec.", "December")
    ]%string.

(** [clean_text(text)] *)
Definition clean_text (text : pyobj) : pystr :=
  match text with
  | PyNone => []
  | _ =>
      let text := str text in
      let text := re_sub_ws false text in
      strip text
  end.

(** [sorted_abbrevs] of [expand_abbreviations]. *)
Definition abbrev_key (item : pystr * pystr) : nat := List.length (fst item).

Definition sorted_abbrevs : list (pystr * pystr) :=
  sorted_desc abbrev_key ABBREVIATIONS.

(** The pattern chosen for one abbreviation: [abbrev.endswith('.')]. *)
Definition pattern_of (abbrev : pystr) : pattern_kind :=
  match last_char abbrev with
  | Some c => if Ascii.eqb c dot then Lookaround else WordBoundary
  | None => WordBoundary
  end.

(** One turn of the loop over [sorted_abbrevs]. *)
Definition expand_one (text : pystr) (item : pystr * pystr) : pystr :=
  let (abbrev, expansion) := item in
  re_sub (pattern_of abbrev) abbrev expansion text.

Definition expand_all (items : list (pystr * pystr)) (text : pystr) : pystr :=
  fold_left expand_one items text.

(** [expand_abbreviations(text)].  A falsy argument is handed back as it
    is; [re.sub] refuses anything that is not a string. *)
Definition expand_abbreviations (text : pyobj) : result pyobj :=
  if negb (truthy text) then Ok text
  else
    match text with
    | PyStr s => Ok (PyStr (expand_all sorted_abbrevs s))
    | _ => Raise TypeError
    end.

Definition msg_empty : pystr := txt "Text cannot be empty".

Definition msg_too_short (min_length : Z) : pystr :=
  txt "Text is too short (minimum " ++ str_of_int min_length
    ++ txt " characters)".

Definition msg_too_long (max_length n : Z) : pystr :=
  txt "Text is too long (maximum " ++ str_of_int max_length
    ++ txt " characters, got " ++ str_of_int n ++ txt ")".

(** [validate_text(text, max_length, min_length)]: the pair
    [(is_valid, error_message)]. *)
Definition validate_text (text : pyobj) (max_length : Z)
           (min_length : option Z) : bool * option pystr :=
  let min_length :=
    match min_length with
    | None => MIN_TEXT_LENGTH
    | Some m => m
    end in
  if negb (truthy text) then (false, Some msg_empty)
  else
    let text := PyStr (str text) in
    let cleaned_text := clean_text text in
    if negb (truthy (PyStr cleaned_text)) then (false, Some msg_empty)
    else if (len cleaned_text <? min_length)%Z
         then (false, Some (msg_too_short min_length))
    else if (max_length <? len cleaned_text)%Z
         then (false, Some (msg_too_long max_length (len cleaned_text)))
    else (true, None).

(** [last_space > max_length * 0.8].  Python compares the integer with the
    double exactly; for every length below 2^50 the rounded product lies on
    the same side of each integer as the exact [4 * max_length / 5], so the
    test is the integer comparison below. *)
Definition beyond_80_percent (last_space max_length : Z) : bool :=
  (4 * max_length <? 5 * last_space)%Z.

(** Step 4 of [preprocess_for_tts]. *)
Definition truncate (processed_text : pystr) (max_length : Z) : pystr :=
  if (max_length <? len processed_text)%Z then
    let truncated := slice_to processed_text max_length in
    let last_space := rfind space truncated in
    if beyond_80_percent last_space max_length
    then slice_to truncated last_space
    else truncated
  else processed_text.

(** [preprocess_for_tts(text, max_length)] *)
Definition preprocess_for_tts (text : pyobj) (max_length : Z) : result pystr :=
  if negb (truthy text) then Ok []
  else
    let processed_text := clean_text text in
    bind (expand_abbreviations (PyStr processed_text)) (fun expanded =>
    let processed_text := clean_text expanded in
    Ok (truncate processed_text max_length)).

Definition DEFAULT_WPM : Z := 150.

(** The [float] that [estimate_duration] returns, with its arithmetic left
    unevaluated: [0.0], or [(word_count / words_per_minute) * 60], whose
    division raises [ZeroDivisionError] when the rate is 0. *)
Inductive duration :=
| ZeroSeconds
| PerMinute (word_count : nat) (words_per_minute : Z)
| ZeroDivisionRaised.

(** [estimate_duration(text, words_per_minute)] *)
Definition estimate_duration (text : pyobj) (words_per_minute : option Z)
  : duration :=
  if negb (truthy text) then ZeroSeconds
  else
    let words_per_minute :=
      match words_per_minute with
      | None => DEFAULT_WPM
      | Some w => w
      end in
    let cleaned_text := clean_text text in
    if negb (truthy (PyStr cleaned_text)) then ZeroSeconds
    else
      let words := split_ws cleaned_text in
      let word_count := List.length words in
      if (words_per_minute =? 0)%Z then ZeroDivisionRaised
      else PerMinute word_count words_per_minute.

End TextProcessor.

Import TextProcessor.

(** ** [utils/tts_engine.py] *)

Module TTSEngine.

(** [c in '.!?'] *)
Definition is_terminator (c : ascii) : bool :=
  Ascii.eqb c "."%char || Ascii.eqb c "!"%char || Ascii.eqb c "?"%char.

(** [preprocess_text(text, max_length)] *)
Definition preprocess_text (text : pystr) (max_length : Z) : pystr :=
  let text := join [space] (split_ws text) in
  let text :=
    if (max_length <? len text)%Z then slice_to text max_length else text in
  match last_char text with
  | Some c => if negb (is_terminator c) then text ++ [dot] else text
  | None => text
  end.

(** The list [sentences] of [split_text], after the comprehension. *)
Definition sentences_of (text : pystr) : list pystr :=
  let sentences :=
    split_on dot (replace "?"%char dot (replace "!"%char dot text)) in
  map (fun s => strip s ++ [dot])
      (filter (fun s => truthy (PyStr (strip s))) sentences).

(** The flush [if current_chunk: chunks.append(current_chunk.strip())]. *)
Definition flush (chunks : list pystr) (current_chunk : pystr) : list pystr :=
  if truthy (PyStr current_chunk)
  then chunks ++ [strip current_chunk]
  else chunks.

(** One turn of the packing loop on the state
    [(chunks, current_chunk)]. *)
Definition pack (max_chunk_length : Z) (st : list pystr * pystr)
           (sentence : pystr) : list pystr * pystr :=
  let (chunks, current_chunk) := st in
  if (len current_chunk + len sentence <=? max_chunk_length)%Z
  then (chunks, current_chunk ++ [space] ++ sentence)
  else (flush chunks current_chunk, sentence).

(** [split_text(text, max_chunk_length)] *)
Definition split_text (text : pystr) (max_chunk_length : Z) : list pystr :=
  let (chunks, current_chunk) :=
    fold_left (pack max_chunk_length) (sentences_of text) ([], []) in
  flush chunks current_chunk.

Section Synthesis.

(** One amplitude sample, and the voice preset. *)
Variables sample voice : Type.

Definition waveform := list sample.

(** The synthesis capability: processor, [model.generate] and the
    conversion to a flat array; it may fail. *)
Variable synthesize : pystr -> option voice -> result waveform.

(** [self.model.generation_config.sample_rate] *)
Variable model_sample_rate : Z.

(** [np.concatenate] of one-dimensional arrays; it refuses an empty
    list. *)
Definition np_concatenate (arrays : list waveform) : result waveform :=
  match arrays with
  | [] => Raise ValueError
  | _ :: _ => Ok (concat arrays)
  end.

(** The loop of [_generate_long_speech] on the state
    [(audio_chunks, sample_rate)]. *)
Fixpoint synthesize_chunks (voice_preset : option voice)
         (chunks : list pystr) (audio_chunks : list waveform)
         (sample_rate : option Z) : result (list waveform * option Z) :=
  match chunks with
  | [] => Ok (audio_chunks, sample_rate)
  | chunk :: rest =>
      bind (synthesize chunk voice_preset) (fun audio_chunk =>
      let audio_chunks := audio_chunks ++ [audio_chunk] in
      let sample_rate :=
        match sample_rate with
        | None => Some model_sample_rate
        | Some r => Some r
        end in
      synthesize_chunks voice_preset rest audio_chunks sample_rate)
  end.

(** [_generate_long_speech(text, voice_preset)] *)
Definition _generate_long_speech (text : pystr)
           (voice_preset : option voice) : result (waveform * option Z) :=
  let chunks := split_text text 250 in
  bind (synthesize_chunks voice_preset chunks [] None) (fun st =>
  let (audio_chunks, sample_rate) := st in
  bind (np_concatenate audio_chunks) (fun full_audio =>
  Ok (full_audio, sample_rate))).

(** The single-call branch of [generate_speech], after the length
    test. *)
Definition generate_direct (text : pystr)
           (voice_preset : option voice) : result (waveform * option Z) :=
  bind (synthesize text voice_preset) (fun audio_array =>
  Ok (audio_array, Some model_sample_rate)).

(** [generate_speech(text, voice_preset)] *)
Definition generate_speech (text : pystr)
           (voice_preset : option voice) : result (waveform * option Z) :=
  let text := preprocess_text text 500 in
  if (250 <? len text)%Z
  then _generate_long_speech text voice_preset
  else generate_direct text voice_preset.

(** *** Export *)

(** What [save_audio] meets outside the program. *)
Record host := {
  PYDUB_AVAILABLE : bool;        (* the import of pydub succeeded *)
  can_mkdir : pystr -> bool;     (* [parent.mkdir] succeeds for the path *)
  can_write : pystr -> bool;     (* [scipy.io.wavfile.write] succeeds *)
  can_transcode : bool;          (* [from_wav] and [export] succeed *)
  temp_wav_path : pystr          (* the name [tempfile] hands out *)
}.

(** What [save_audio] does to the file system, in order. *)
Inductive event :=
| EnsuredParent (path : pystr)
| WroteWav (path : pystr) (rate : Z) (data : list Z)
| ExportedMp3 (path : pystr)
| Removed (path : pystr).

(** The value of a call: [None] or a path. *)
Definition returned := option pystr.

(** [c.lower()] *)
Definition lower_char (c : ascii) : ascii :=
  let n := N_of_ascii c in
  if ((65 <=? n) && (n <=? 90)
      || (192 <=? n) && (n <=? 222) && negb (n =? 215))%N
  then ascii_of_N (n + 32) else c.

Definition lower (s : pystr) : pystr := map lower_char s.

(** [Path.name], [Path.suffix] and [Path.with_suffix] on a POSIX path.
    [with_suffix] is only applied to a path with a suffix, which has a
    name, so pathlib's refusal of an empty name cannot occur. *)
Definition path_name (p : pystr) : pystr :=
  skipn (Z.to_nat (rfind "/"%char p + 1)) p.

Definition path_suffix (p : pystr) : pystr :=
  let name := path_name p in
  let i := rfind dot name in
  if ((0 <? i) && (i <? len name - 1))%Z
  then skipn (Z.to_nat i) name
  else [].

Definition with_suffix (p suffix : pystr) : pystr :=
  firstn (List.length p - List.length (path_suffix p)) p ++ suffix.

(** Lines 269-276 of [save_audio]: the conversion of the array to
    16-bit integers. *)
Variable to_int16 : waveform -> list Z.

(** The final [scipy.io.wavfile.write] and the end of the function,
    which hands back nothing. *)
Definition write_wav (h : host) (done : list event) (output_path : pystr)
           (rate : Z) (data : list Z) : list event * result returned :=
  if can_write h output_path
  then (done ++ [WroteWav output_path rate data], Ok None)
  else (done, Raise OSError).

(** [save_audio(audio_array, sample_rate, output_path)]: the events and
    the value returned or the exception raised again by the handler. *)
Definition save_audio (h : host) (audio_array : waveform)
           (sample_rate : option Z) (output_path : pystr)
  : list event * result returned :=
  if negb (can_mkdir h output_path) then ([], Raise OSError)
  else
    let done := [EnsuredParent output_path] in
    match sample_rate with
    | None => (done, Raise TypeError)
    | Some sample_rate =>
        let file_ext := lower (path_suffix output_path) in
        let audio_array := to_int16 audio_array in
        if list_eq_dec ascii_dec file_ext (txt ".mp3") then
          if negb (PYDUB_AVAILABLE h) then
            let output_path := with_suffix output_path (txt ".wav") in
            write_wav h done output_path sample_rate audio_array
          else
            let temp := temp_wav_path h in
            if negb (can_write h temp)
            then (done ++ [Removed temp], Raise OSError)
            else
              let done := done ++ [WroteWav temp sample_rate audio_array] in
              if can_transcode h
              then (done ++ [ExportedMp3 output_path; Removed temp], Ok None)
              else
                let output_path := with_suffix output_path (txt ".wav") in
                write_wav h (done ++ [Removed temp]) output_path
                          sample_rate audio_array
        else write_wav h done output_path sample_rate audio_array
    end.

(** [text_to_speech_file(text, output_path, voice_preset)] *)
Definition text_to_speech_file (h : host) (text output_path : pystr)
           (voice_preset : option voice) : list event * result returned :=
  match generate_speech text voice_preset with
  | Raise e => ([], Raise e)
  | Ok (audio_array, sample_rate) =>
      let (done, actual_path) :=
        save_audio h audio_array sample_rate output_path in
      (done, actual_path)
  end.

End Synthesis.

End TTSEngine.

Import TTSEngine.

(** ** [app.py]: the synthesis endpoint *)

Module App.

(** The configuration values the endpoint reads. *)
Record config := {
  MAX_TEXT_LENGTH : Z;
  AUDIO_FORMAT : pystr;
  AUDIO_OUTPUT_DIR : pystr
}.

Section Endpoint.

Variables sample voice : Type.
Variable synthesize : pystr -> option voice -> result (list sample).
Variable model_sample_rate : Z.
Variable to_int16 : list sample -> list Z.

(** The JSON object of the request as the endpoint reads it: the value
    under ['text'] when the key is there, and the one under
    ['voice_preset']. *)
Record body := {
  text_value : option pyobj;
  voice_preset_value : option voice
}.

(** The answers of the endpoint.  The time stamp of a success is left
    out. *)
Inductive response :=
| Rejected (error : option pystr)                 (* 400 *)
| Synthesized (audio_url audio_id text : pystr)
              (estimated_duration : duration)     (* 200 *)
| Failed (cause : exn).                           (* 500 *)

(** [synthesize()].  [data] is the parsed body ([None] when it is missing
    or empty), [audio_id] the fresh [uuid4] and [engine] the outcome of
    [get_tts_engine()]. *)
Definition synthesize_endpoint (cfg : config) (h : host)
           (engine : result unit) (audio_id : pystr) (data : option body)
  : list event * response :=
  match data with
  | None => ([], Rejected (Some (txt "No text provided")))
  | Some data =>
      match text_value data with
      | None => ([], Rejected (Some (txt "No text provided")))
      | Some text =>
          let voice_preset := voice_preset_value data in
          let (is_valid, error_msg) :=
            validate_text text (MAX_TEXT_LENGTH cfg) None in
          if negb is_valid then ([], Rejected error_msg)
          else
            match preprocess_for_tts text (MAX_TEXT_LENGTH cfg) with
            | Raise e => ([], Failed e)
            | Ok processed_text =>
                let requested_format := AUDIO_FORMAT cfg in
                let audio_filename :=
                  audio_id ++ txt "." ++ requested_format in
                let audio_path :=
                  AUDIO_OUTPUT_DIR cfg ++ txt "/" ++ audio_filename in
                match engine with
                | Raise e => ([], Failed e)
                | Ok _ =>
                    let (done, actual_output_path) :=
                      text_to_speech_file sample voice synthesize
                        model_sample_rate to_int16 h processed_text
                        audio_path voice_preset in
                    match actual_output_path with
                    | Raise e => (done, Failed e)
                    | Ok _ =>
                        let actual_filename := audio_filename in
                        let estimated_duration :=
                          estimate_duration (PyStr processed_text) None in
                        (done,
                         Synthesized (txt "/audio/" ++ actual_filename)
                                     audio_id processed_text
                                     estimated_duration)
                    end
                end
            end
      end
  end.

End Endpoint.

End App.

Import App.

(** ** Vocabulary of the specification *)

Module Spec.

Definition nonspace (c : ascii) : Prop := isspace c = false.

(** A maximal run of non-whitespace characters. *)
Definition is_token (w : pystr) : Prop :=
  w <> [] /\ Forall nonspace w.

(** What follows the first word of a joined list. *)
Definition after_first (ws : list pystr) : pystr :=
  match ws with
  | [] => []
  | _ :: _ => space :: join [space] ws
  end.

Definition starts_ws (s : pystr) : bool :=
  match s with
  | c :: _ => isspace c
  | [] => false
  end.

Definition ends_ws (s : pystr) : bool :=
  match last_char s with
  | Some c => isspace c
  | None => false
  end.

(** Two adjacent whitespace characters somewhere in [s]. *)
Fixpoint has_ws_pair (s : pystr) : bool :=
  match s with
  | c1 :: s' =>
      match s' with
      | c2 :: _ => isspace c1 && isspace c2 || has_ws_pair s'
      | [] => false
      end
  | [] => false
  end.

(** Whitespace-collapsed: no leading or trailing whitespace, no run of
    two or more whitespace characters, and no whitespace character other
    than the plain space. *)
Definition collapsed (s : pystr) : bool :=
  negb (starts_ws s) && negb (ends_ws s) && negb (has_ws_pair s)
  && forallb (fun c => negb (isspace c) || Ascii.eqb c space) s.

(** The text [preprocess_for_tts] has before its truncation step:
    cleaned, expanded, cleaned again. *)
Definition processed_form (text : pyobj) : pystr :=
  clean_text (PyStr (expand_all sorted_abbrevs (clean_text text))).

(** [i] is the position of the last occurrence of [c] in [s]. *)
Definition is_last (c : ascii) (s : pystr) (i : nat) : Prop :=
  nth_error s i = Some c
  /\ forall j, (i < j)%nat -> nth_error s j <> Some c.

(** The truncation step as the specification words it: the word boundary
    is taken when the space lies at 80% of [max_length] or beyond. *)
Definition truncate_as_specified (processed_text : pystr)
           (max_length : Z) : pystr :=
  if (max_length <? len processed_text)%Z then
    let truncated := slice_to processed_text max_length in
    let last_space := rfind space truncated in
    if (4 * max_length <=? 5 * last_space)%Z
    then slice_to truncated last_space
    else truncated
  else processed_text.

(** A host on which the import of pydub failed, and one on which pydub
    is there but the encoder is not; both can write everywhere. *)
Definition host_without_pydub : host :=
  {| PYDUB_AVAILABLE := false;
     can_mkdir := fun _ => true;
     can_write := fun _ => true;
     can_transcode := false;
     temp_wav_path := txt "/tmp/tmp0.wav" |}.

Definition host_without_encoder : host :=
  {| PYDUB_AVAILABLE := true;
     can_mkdir := fun _ => true;
     can_write := fun _ => true;
     can_transcode := false;
     temp_wav_path := txt "/tmp/tmp0.wav" |}.

(** A stub of the synthesis capability: the same waveform on every
    call. *)
Definition stub {sample voice : Type} (w : list sample)
  : pystr -> option voice -> result (list sample) :=
  fun _ _ => Ok w.

(** The character before a position: the last one of the text scanned so
    far, or [prev], the character before the scan began. *)
Definition char_before (prev : option ascii) (scanned : pystr)
  : option ascii :=
  match last_char scanned with
  | Some c => Some c
  | None => prev
  end.

(** An exact, case-sensitive occurrence of [a] at the head of [rest] that
    is not part of a larger word: no word character before it and none
    after it. *)
Definition bounded_occurrence (a : pystr) (prev : option ascii)
           (rest : pystr) : bool :=
  starts_with a rest
  && (negb (isword_opt prev)
      && negb (isword_opt (hd_error (skipn (List.length a) rest)))).

(** Descending order of the keys. *)
Definition desc_by {A : Type} (key : A -> nat) (x y : A) : Prop :=
  (key y <= key x)%nat.

(** Longer abbreviations come first. *)
Definition longer_first : pystr * pystr -> pystr * pystr -> Prop :=
  desc_by abbrev_key.

(** A chunk is one of the sentences, or at most [m + 1] long. *)
Definition chunk_within (sentences : list pystr) (m : Z) (chunk : pystr)
  : Prop :=
  In chunk sentences \/ (len chunk <= m + 1)%Z.

(** A character that only a text with an abbreviation can hold: every
    entry of the table has a period or the letter v. *)
Definition dot_or_v (c : ascii) : bool :=
  Ascii.eqb c dot || Ascii.eqb c "v"%char.

(** Every whitespace character of [s] is the plain space. *)
Definition plain_spaces (s : pystr) : bool :=
  forallb (fun c => negb (isspace c) || Ascii.eqb c space) s.

(** The shape of a sentence of [split_text], and of every chunk packed
    from sentences: no whitespace in front, a period at the end. *)
Definition sentence_like (x : pystr) : Prop :=
  starts_ws x = false /\ exists y, x = y ++ [dot].

(** The state of the packing loop after the sentences [done]: the closed
    chunks and the stripped open chunk [g], joined by spaces, are the
    sentences so far joined by spaces. *)
Definition packed (chunks : list pystr) (current_chunk : pystr)
           (done : list pystr) : Prop :=
  Forall sentence_like chunks
  /\ (current_chunk = [] /\ chunks = [] /\ done = []
      \/ exists g, sentence_like g
                   /\ (current_chunk = g \/ current_chunk = space :: g)
                   /\ done <> []
                   /\ join [space] (chunks ++ [g]) = join [space] done).

Definition has_nonspace (s : pystr) : bool :=
  existsb (fun c => negb (isspace c)) s.

Definition ends_in_terminator (s : pystr) : bool :=
  match last_char s with
  | Some c => is_terminator c
  | None => false
  end.

End Spec.

Import Spec.

(** ** Facts about the primitives *)

Section PrimitiveFacts.

Lemma last_char_app (a b : pystr) :
  b <> [] -> last_char (a ++ b) = last_char b.
Proof.
  intros Hb. unfold last_char. rewrite rev_app_distr.
  destruct (rev b) as [|c r] eqn:E.
  - apply (f_equal (@rev ascii)) in E. rewrite rev_involutive in E.
    simpl in E. contradiction.
  - reflexivity.
Qed.

Lemma last_char_snoc (a : pystr) (c : ascii) : last_char (a ++ [c]) = Some c.
Proof. rewrite last_char_app by discriminate. reflexivity. Qed.

Lemma last_char_cons (c : ascii) (s : pystr) :
  s <> [] -> last_char (c :: s) = last_char s.
Proof. intros H. apply (last_char_app [c] s H). Qed.

Lemma last_char_none (s : pystr) : last_char s = None -> s = [].
Proof.
  unfold last_char. destruct (rev s) eqn:E; [|discriminate].
  intros _. apply (f_equal (@rev ascii)) in E.
  now rewrite rev_involutive in E.
Qed.

Lemma has_ws_pair_cons_nonspace (c : ascii) (r : pystr) :
  isspace c = false -> has_ws_pair (c :: r) = has_ws_pair r.
Proof. intros H. simpl. rewrite H. now destruct r. Qed.

Lemma has_ws_pair_cons_sep (c : ascii) (r : pystr) :
  starts_ws r = false -> has_ws_pair (c :: r) = has_ws_pair r.
Proof.
  intros H. destruct r as [|d r]; [reflexivity|].
  simpl in H. cbn [has_ws_pair]. rewrite H, andb_false_r. reflexivity.
Qed.

Lemma has_ws_pair_token_app (w r : pystr) :
  Forall nonspace w ->
  has_ws_pair (w ++ r) = has_ws_pair r.
Proof.
  induction 1 as [|c w Hc _ IH]; [reflexivity|].
  rewrite <- app_comm_cons, has_ws_pair_cons_nonspace; assumption.
Qed.

Lemma has_ws_pair_snoc_nonspace (s : pystr) (c : ascii) :
  isspace c = false -> has_ws_pair (s ++ [c]) = has_ws_pair s.
Proof.
  intros Hc. induction s as [|d s IH]; [reflexivity|].
  destruct s as [|e s].
  - simpl. rewrite Hc, andb_false_r. reflexivity.
  - change ((d :: e :: s) ++ [c]) with (d :: (e :: s) ++ [c]).
    cbn [has_ws_pair app] in *. rewrite IH. reflexivity.
Qed.

Lemma has_ws_pair_firstn (n : nat) (s : pystr) :
  has_ws_pair s = false -> has_ws_pair (firstn n s) = false.
Proof.
  revert n. induction s as [|c s IH]; intros n H.
  - now rewrite firstn_nil.
  - destruct n as [|n]; [reflexivity|].
    destruct s as [|d s]; [now destruct n|].
    cbn [has_ws_pair] in H. apply orb_false_iff in H as [H1 H2].
    specialize (IH n H2).
    destruct n as [|n]; [reflexivity|].
    change (firstn (S (S n)) (c :: d :: s))
      with (c :: d :: firstn n s).
    change (firstn (S n) (d :: s)) with (d :: firstn n s) in IH.
    cbn [has_ws_pair]. cbn [has_ws_pair] in IH.
    rewrite H1. exact IH.
Qed.

Lemma starts_ws_firstn (n : nat) (s : pystr) :
  starts_ws s = false -> starts_ws (firstn n s) = false.
Proof. destruct s, n; simpl; auto. Qed.

Lemma forallb_firstn {A} (f : A -> bool) (n : nat) (l : list A) :
  forallb f l = true -> forallb f (firstn n l) = true.
Proof.
  revert n. induction l as [|x l IH]; intros [|n] H; simpl in *; auto.
  apply andb_true_iff in H as [H1 H2]. rewrite H1. simpl. auto.
Qed.

End PrimitiveFacts.

(** ** Whitespace collapsing: [re.sub(r'\s+', ' ', s).strip()] and
       [" ".join(s.split())] *)

Section Whitespace.

Lemma join_cons (w : pystr) (ws : list pystr) :
  join [space] (w :: ws) = w ++ after_first ws.
Proof. destruct ws; simpl; [now rewrite app_nil_r | reflexivity]. Qed.

Lemma cons_nonempty_tokens (w : pystr) (ws : list pystr) :
  Forall nonspace w -> Forall is_token ws ->
  Forall is_token (cons_nonempty w ws).
Proof.
  intros Hw Hws. destruct w; simpl; [assumption|].
  constructor; [split; [discriminate | assumption] | assumption].
Qed.

Lemma words_aux_tokens (s : pystr) :
  Forall nonspace (fst (words_aux s)) /\ Forall is_token (snd (words_aux s)).
Proof.
  induction s as [|c s [IHw IHws]]; simpl; [split; constructor|].
  destruct (words_aux s) as [w ws]. simpl in *.
  destruct (isspace c) eqn:Hc; simpl; split; auto.
  now apply cons_nonempty_tokens.
Qed.

Lemma split_ws_tokens (s : pystr) : Forall is_token (split_ws s).
Proof.
  unfold split_ws. pose proof (words_aux_tokens s) as [Hw Hws].
  destruct (words_aux s). now apply cons_nonempty_tokens.
Qed.

Lemma join_tokens_nil (l : list pystr) :
  Forall is_token l -> join [space] l = [] -> l = [].
Proof.
  destruct 1 as [|w l [Hne _] _]; [reflexivity|].
  rewrite join_cons. destruct w; [contradiction | discriminate].
Qed.

Lemma join_tokens_starts (l : list pystr) :
  Forall is_token l -> starts_ws (join [space] l) = false.
Proof.
  destruct 1 as [|w l [Hne Hw] _]; [reflexivity|].
  rewrite join_cons. destruct Hw; [contradiction | assumption].
Qed.

Lemma lstrip_id (s : pystr) : starts_ws s = false -> lstrip s = s.
Proof. destruct s; simpl; [reflexivity|]. now intros ->. Qed.

(** The replaced string, right-stripped, in terms of the words of [s]:
    outside a run and inside one. *)
Lemma rstrip_re_sub_ws (s : pystr) :
  rstrip (re_sub_ws false s)
    = fst (words_aux s) ++ after_first (snd (words_aux s))
  /\ rstrip (re_sub_ws true s) = join [space] (split_ws s).
Proof.
  unfold split_ws.
  induction s as [|c s [IH1 IH2]]; [split; reflexivity|].
  pose proof (words_aux_tokens s) as [Hw Hws].
  cbn [words_aux re_sub_ws]. destruct (words_aux s) as [w ws].
  cbn [fst snd] in *.
  destruct (isspace c) eqn:Hc; cbn [fst snd cons_nonempty app rstrip].
  - split; [|exact IH2].
    rewrite IH2.
    pose proof (cons_nonempty_tokens w ws Hw Hws) as Htok.
    destruct (join [space] (cons_nonempty w ws)) as [|j r] eqn:Ej.
    + apply join_tokens_nil in Ej; [|assumption]. rewrite Ej.
      reflexivity.
    + destruct (cons_nonempty w ws) as [|x l]; [discriminate|].
      cbn [after_first]. now rewrite Ej.
  - rewrite IH1, Hc.
    rewrite join_cons. cbn [app].
    destruct (w ++ after_first ws); split; reflexivity.
Qed.

(** On strings, [clean_text] is [" ".join(text.split())]. *)
Lemma clean_text_join_split (s : pystr) :
  clean_text (PyStr s) = join [space] (split_ws s).
Proof.
  unfold clean_text, str, strip.
  destruct (rstrip_re_sub_ws s) as [E _]. rewrite E.
  pose proof (words_aux_tokens s) as [Hw Hws].
  unfold split_ws. destruct (words_aux s) as [w ws]. cbn [fst snd] in *.
  destruct w as [|c w]; cbn [cons_nonempty].
  - destruct ws as [|x l]; [reflexivity|].
    cbn [app after_first lstrip].
    assert (Hs : isspace space = true) by reflexivity. rewrite Hs.
    apply lstrip_id, join_tokens_starts, Hws.
  - rewrite join_cons. apply lstrip_id. simpl.
    now inversion Hw.
Qed.

Lemma last_char_forall (P : ascii -> Prop) (s : pystr) (c : ascii) :
  Forall P s -> last_char s = Some c -> P c.
Proof.
  intros H E. unfold last_char in E.
  destruct (rev s) as [|d r] eqn:Er; [discriminate|].
  injection E as ->. apply Forall_rev in H. rewrite Er in H.
  now inversion H.
Qed.

Lemma join_tokens_ends (l : list pystr) :
  Forall is_token l -> ends_ws (join [space] l) = false.
Proof.
  induction 1 as [|w l [Hne Hw] Hl IH]; [reflexivity|].
  rewrite join_cons. destruct l as [|x l'].
  - cbn [after_first]. rewrite app_nil_r. unfold ends_ws.
    destruct (last_char w) eqn:E; [|reflexivity].
    exact (last_char_forall _ _ _ Hw E).
  - cbn [after_first]. unfold ends_ws in *.
    rewrite last_char_app by discriminate.
    rewrite last_char_cons; [exact IH|].
    intros E. apply join_tokens_nil in E; [discriminate | assumption].
Qed.

Lemma join_tokens_no_pair (l : list pystr) :
  Forall is_token l -> has_ws_pair (join [space] l) = false.
Proof.
  induction 1 as [|w l [Hne Hw] Hl IH]; [reflexivity|].
  rewrite join_cons, has_ws_pair_token_app by assumption.
  destruct l as [|x l']; [reflexivity|]. cbn [after_first].
  rewrite has_ws_pair_cons_sep; [exact IH|].
  now apply join_tokens_starts.
Qed.

Lemma join_tokens_plain (l : list pystr) :
  Forall is_token l ->
  forallb (fun c => negb (isspace c) || Ascii.eqb c space)
          (join [space] l) = true.
Proof.
  induction 1 as [|w l [Hne Hw] Hl IH]; [reflexivity|].
  rewrite join_cons, forallb_app. apply andb_true_iff. split.
  - apply forallb_forall. intros c Hc.
    rewrite Forall_forall in Hw. now rewrite (Hw c Hc).
  - destruct l; [reflexivity|]. cbn [after_first forallb].
    now rewrite IH.
Qed.

Lemma join_tokens_collapsed (l : list pystr) :
  Forall is_token l -> collapsed (join [space] l) = true.
Proof.
  intros H. unfold collapsed.
  now rewrite join_tokens_starts, join_tokens_ends, join_tokens_no_pair,
    join_tokens_plain.
Qed.

End Whitespace.

(** ** [TextProcessor.clean_text] *)

Section CleanText.

(** C7, as the code has it: [None] gives the empty string; any other
    non-string object is first turned into its [str()] and then cleaned
    like a string; for every string the result is its whitespace-separated
    words joined by single spaces, hence without leading or trailing
    whitespace, without a run of two whitespace characters and with the
    plain space as only whitespace.  In particular the three values the
    specification lists. *)
Theorem clean_text_collapses_whitespace :
  clean_text PyNone = []
  /\ (forall b r, clean_text (PyOther b r) = clean_text (PyStr r))
  /\ (forall s, clean_text (PyStr s) = join [space] (split_ws s)
                /\ Forall is_token (split_ws s)
                /\ collapsed (clean_text (PyStr s)) = true)
  /\ clean_text (PyStr (txt "  Hello   world  ")) = txt "Hello world"
  /\ clean_text (PyStr (txt "")) = txt "".
Proof.
  split; [reflexivity|]. split; [reflexivity|].
  split; [|split; reflexivity].
  intros s. rewrite clean_text_join_split.
  pose proof (split_ws_tokens s) as H.
  split; [reflexivity|]. split; [assumption|].
  now apply join_tokens_collapsed.
Qed.

(** C7 as stated fails on non-string input: the integer [123], whose
    [str()] is ["123"], is cleaned to ["123"], not to the empty string. *)
Lemma clean_text_non_string_not_empty :
  clean_text (PyOther true (txt "123")) = txt "123"
  /\ clean_text (PyOther true (txt "123")) <> txt "".
Proof. split; [reflexivity | discriminate]. Qed.

End CleanText.

(** ** [TextProcessor.validate_text] *)

Section ValidateText.

Lemma truthy_str_false (s : pystr) : truthy (PyStr s) = false <-> s = [].
Proof. destruct s; simpl; split; congruence. Qed.

(** C5: the cases of [validate_text], tried in the order the specification
    lists them.  [cleaned] is the cleaned copy the function computes;
    being a pure function of immutable values, it leaves the caller's
    argument as it was. *)
Theorem validate_text_cases (text : pyobj) (max_length : Z)
        (min_length : option Z) :
  let minimum :=
    match min_length with
    | None => 3%Z
    | Some m => m
    end in
  let cleaned := clean_text (PyStr (str text)) in
  let n := len cleaned in
  (truthy text = false \/ cleaned = [] ->
     validate_text text max_length min_length
     = (false, Some (txt "Text cannot be empty")))
  /\ (truthy text = true -> cleaned <> [] -> (n < minimum)%Z ->
        validate_text text max_length min_length
        = (false, Some (txt "Text is too short (minimum "
                          ++ str_of_int minimum ++ txt " characters)")))
  /\ (truthy text = true -> cleaned <> [] -> (minimum <= n)%Z ->
      (max_length < n)%Z ->
        validate_text text max_length min_length
        = (false, Some (txt "Text is too long (maximum "
                          ++ str_of_int max_length
                          ++ txt " characters, got " ++ str_of_int n
                          ++ txt ")")))
  /\ ((max_length < n)%Z ->
        fst (validate_text text max_length min_length) = false)
  /\ (truthy text = true -> cleaned <> [] ->
      (minimum <= n <= max_length)%Z ->
        validate_text text max_length min_length = (true, None)).
Proof.
  intros minimum cleaned n. unfold validate_text.
  fold minimum. unfold MIN_TEXT_LENGTH.
  change (match min_length with Some m => m | None => 3%Z end) with minimum.
  fold cleaned. fold n.
  destruct (truthy text) eqn:Ht; cbn [negb].
  - destruct (truthy (PyStr cleaned)) eqn:Hc; cbn [negb].
    + assert (Hne : cleaned <> [])
        by (intros E; apply truthy_str_false in E; congruence).
      destruct (Z.ltb_spec n minimum) as [Hlo|Hlo];
        [|destruct (Z.ltb_spec max_length n) as [Hhi|Hhi]].
      * repeat split; intros; try reflexivity; try lia.
        destruct H; congruence.
      * repeat split; intros; try reflexivity; try lia.
        destruct H; congruence.
      * repeat split; intros; try reflexivity; try lia.
        destruct H; congruence.
    + apply truthy_str_false in Hc.
      repeat split; intros; try reflexivity; try congruence.
  - repeat split; intros; try reflexivity; try congruence.
Qed.

Lemma validate_text_cases_witness :
  validate_text (PyStr (txt "Hi")) 2000 None
  = (false, Some (txt "Text is too short (minimum 3 characters)")).
Proof.
  apply (proj1 (proj2 (validate_text_cases (PyStr (txt "Hi")) 2000 None)));
    [reflexivity | discriminate | vm_compute; reflexivity].
Defined.

Example validate_text_examples :
  fst (validate_text (PyStr (txt "")) 2000 None) = false
  /\ validate_text (PyStr (txt "Hello world")) 2000 None = (true, None)
  /\ validate_text (PyStr (repeat "a"%char 501)) 500 None
     = (false, Some (txt "Text is too long (maximum 500 characters, got 501)"))
  /\ validate_text PyNone 2000 None
     = (false, Some (txt "Text cannot be empty")).
Proof. vm_compute. repeat split. Qed.

End ValidateText.

(** ** [TextProcessor.expand_abbreviations] on falsy arguments *)

Section ExpandFalsy.

(** C10: a falsy argument comes back as it is: [None] stays [None] and is
    not turned into a string, the empty string stays the empty string;
    [clean_text] instead maps [None] to the empty string. *)
Theorem expand_abbreviations_falsy_unchanged :
  (forall x, truthy x = false -> expand_abbreviations x = Ok x)
  /\ expand_abbreviations PyNone = Ok PyNone
  /\ expand_abbreviations (PyStr (txt "")) = Ok (PyStr (txt ""))
  /\ PyNone <> PyStr (txt "")
  /\ clean_text PyNone = txt "".
Proof.
  split; [|repeat split; discriminate].
  intros x Hx. unfold expand_abbreviations. now rewrite Hx.
Qed.

Lemma expand_abbreviations_falsy_unchanged_witness :
  expand_abbreviations (PyOther false (txt "0")) = Ok (PyOther false (txt "0")).
Proof.
  apply (proj1 expand_abbreviations_falsy_unchanged). reflexivity.
Defined.

End ExpandFalsy.

(** ** [TextProcessor.preprocess_for_tts] *)

Section Preprocess.

Lemma rfind_spec (c : ascii) (s : pystr) :
  (rfind c s = (-1)%Z /\ ~ In c s)
  \/ (exists i, rfind c s = Z.of_nat i /\ is_last c s i).
Proof.
  induction s as [|d s [[Hr Hn]|[i [Hr [Hi Hlast]]]]].
  - left. split; [reflexivity | intros []].
  - cbn [rfind]. rewrite Hr. cbn [Z.leb Z.compare].
    destruct (Ascii.eqb_spec d c) as [->|Hdc].
    + right. exists 0%nat. split; [reflexivity|]. split; [reflexivity|].
      intros [|j] Hj; [lia|]. cbn [nth_error]. intros E.
      apply nth_error_In in E. contradiction.
    + left. split; [reflexivity|]. intros [E|E]; congruence.
  - right. exists (S i). cbn [rfind]. rewrite Hr.
    destruct (Z.leb_spec 0 (Z.of_nat i)); [|lia].
    split; [lia|]. split; [exact Hi|].
    intros [|j] Hj; [lia|]. cbn [nth_error]. apply Hlast. lia.
Qed.

Lemma is_last_unique (c : ascii) (s : pystr) (i j : nat) :
  is_last c s i -> is_last c s j -> i = j.
Proof.
  intros [Hi Li] [Hj Lj].
  destruct (Nat.lt_trichotomy i j) as [H|[H|H]]; [|assumption|].
  - now apply Li in H.
  - now apply Lj in H.
Qed.

Lemma rfind_is_last (c : ascii) (s : pystr) (i : nat) :
  is_last c s i -> rfind c s = Z.of_nat i.
Proof.
  intros H. destruct (rfind_spec c s) as [[_ Hn]|[j [Hr Hj]]].
  - destruct H as [H _]. apply nth_error_In in H. contradiction.
  - now rewrite (is_last_unique _ _ _ _ H Hj).
Qed.

Lemma rfind_not_in (c : ascii) (s : pystr) :
  ~ In c s -> rfind c s = (-1)%Z.
Proof.
  intros H. destruct (rfind_spec c s) as [[Hr _]|[j [_ [Hj _]]]];
    [assumption|].
  apply nth_error_In in Hj. contradiction.
Qed.

Lemma len_slice_to_le (s : pystr) (n : Z) :
  (len (slice_to s n) <= len s)%Z.
Proof.
  unfold slice_to, len.
  destruct (0 <=? n)%Z; rewrite length_firstn; lia.
Qed.

Lemma len_slice_to_bound (s : pystr) (n : Z) :
  (0 <= n)%Z -> (len (slice_to s n) <= n)%Z.
Proof.
  intros Hn. unfold slice_to, len.
  destruct (Z.leb_spec 0 n); [|lia].
  rewrite length_firstn. lia.
Qed.

Lemma len_truncate (p : pystr) (max_length : Z) :
  (0 <= max_length)%Z -> (len (truncate p max_length) <= max_length)%Z.
Proof.
  intros Hm. unfold truncate.
  destruct (Z.ltb_spec max_length (len p)) as [Hlt|Hge]; [|lia].
  pose proof (len_slice_to_bound p max_length Hm) as Hcut.
  destruct (beyond_80_percent _ _); [|assumption].
  pose proof (len_slice_to_le (slice_to p max_length)
                (rfind space (slice_to p max_length))).
  lia.
Qed.

(** The pipeline never raises: [clean_text] always hands a string to
    [expand_abbreviations]. *)
Lemma preprocess_for_tts_unfold (text : pyobj) (max_length : Z) :
  preprocess_for_tts text max_length
  = Ok (if truthy text
        then truncate (processed_form text) max_length
        else []).
Proof.
  unfold preprocess_for_tts, processed_form.
  destruct (truthy text); cbn [negb]; [|reflexivity].
  unfold expand_abbreviations.
  destruct (clean_text text) as [|c p] eqn:E; reflexivity.
Qed.

End Preprocess.

Section Truncation.

(** C8: for a length bound that is not negative, [preprocess_for_tts]
    returns (it never raises) and the string it returns is at most
    [max_length] long; 600 letters cut at 500 give exactly 500. *)
Theorem preprocess_for_tts_length_bound (text : pyobj) (max_length : Z) :
  (0 <= max_length)%Z ->
  (exists out, preprocess_for_tts text max_length = Ok out
               /\ (len out <= max_length)%Z)
  /\ (exists out,
        preprocess_for_tts (PyStr (repeat "a"%char 600)) 500 = Ok out
        /\ len out = 500%Z).
Proof.
  intros Hm. split.
  - rewrite preprocess_for_tts_unfold. eexists. split; [reflexivity|].
    destruct (truthy text); [now apply len_truncate | exact Hm].
  - exists (repeat "a"%char 500). split; vm_compute; reflexivity.
Qed.

Lemma preprocess_for_tts_length_bound_witness :
  exists out, preprocess_for_tts (PyStr (txt "Dr. Smith said hello")) 12
              = Ok out
              /\ (len out <= 12)%Z.
Proof.
  apply (preprocess_for_tts_length_bound
           (PyStr (txt "Dr. Smith said hello")) 12).
  lia.
Defined.

Lemma processed_form_empty : processed_form (PyStr []) = [].
Proof. reflexivity. Qed.

(** C2, as the code has it: when the processed text is longer than
    [max_length], it is cut at [max_length]; if the last space of that
    prefix lies strictly beyond 80% of [max_length], the result is the
    prefix up to that space, the space excluded; if it lies at 80% or
    before, or the prefix has no space, the result is the prefix. *)
Theorem preprocess_for_tts_truncation (s : pystr) (max_length : Z) :
  (0 <= max_length < len (processed_form (PyStr s)))%Z ->
  let cut := firstn (Z.to_nat max_length) (processed_form (PyStr s)) in
  len cut = max_length
  /\ (forall i, is_last space cut i ->
                (4 * max_length < 5 * Z.of_nat i)%Z ->
                preprocess_for_tts (PyStr s) max_length = Ok (firstn i cut))
  /\ (forall i, is_last space cut i ->
                (5 * Z.of_nat i <= 4 * max_length)%Z ->
                preprocess_for_tts (PyStr s) max_length = Ok cut)
  /\ (~ In space cut ->
      preprocess_for_tts (PyStr s) max_length = Ok cut).
Proof.
  intros [Hm Hlen] cut.
  assert (Ht : truthy (PyStr s) = true).
  { destruct s; [|reflexivity].
    rewrite processed_form_empty in Hlen. cbn in Hlen. lia. }
  rewrite preprocess_for_tts_unfold, Ht.
  set (p := processed_form (PyStr s)) in *.
  assert (Hcut : slice_to p max_length = cut).
  { unfold slice_to. now destruct (Z.leb_spec 0 max_length); [|lia]. }
  unfold truncate. destruct (Z.ltb_spec max_length (len p)); [|lia].
  rewrite Hcut. unfold beyond_80_percent.
  split; [|split; [|split]].
  - unfold cut, len in *. rewrite length_firstn. lia.
  - intros i Hi Hfar. rewrite (rfind_is_last _ _ _ Hi).
    destruct (Z.ltb_spec (4 * max_length) (5 * Z.of_nat i)); [|lia].
    unfold slice_to. destruct (Z.leb_spec 0 (Z.of_nat i)); [|lia].
    now rewrite Nat2Z.id.
  - intros i Hi Hnear. rewrite (rfind_is_last _ _ _ Hi).
    now destruct (Z.ltb_spec (4 * max_length) (5 * Z.of_nat i)); [lia|].
  - intros Hno. rewrite (rfind_not_in _ _ Hno).
    now destruct (Z.ltb_spec (4 * max_length) (5 * -1)); [lia|].
Qed.

Lemma preprocess_for_tts_truncation_witness :
  preprocess_for_tts (PyStr (txt "aaaaaaaaa bcdef")) 10
  = Ok (txt "aaaaaaaaa").
Proof.
  assert (H : (0 <= 10 < len (processed_form
                                (PyStr (txt "aaaaaaaaa bcdef"))))%Z)
    by (vm_compute; split; [discriminate | reflexivity]).
  apply (proj1 (proj2 (preprocess_for_tts_truncation _ 10 H)) 9%nat).
  - assert (Ec : firstn (Z.to_nat 10)
                   (processed_form (PyStr (txt "aaaaaaaaa bcdef")))
                 = txt "aaaaaaaaa ") by (vm_compute; reflexivity).
    rewrite Ec. split; [reflexivity|].
    intros j Hj. do 10 (destruct j as [|j]; [lia|]).
    cbn. destruct j; discriminate.
  - lia.
Defined.

(** C2 as stated fails where the last space lies at exactly 80% of
    [max_length]: with [max_length = 10] and the space at index 8 the
    code keeps the hard cut of 10 characters, where the specification's
    wording cuts at the space. *)
Lemma truncation_keeps_hard_cut_at_80_percent :
  let text := txt "aaaaaaaa bcdef" in
  processed_form (PyStr text) = text
  /\ rfind space (slice_to text 10) = 8%Z
  /\ (4 * 10 <= 5 * 8)%Z
  /\ preprocess_for_tts (PyStr text) 10 = Ok (txt "aaaaaaaa b")
  /\ truncate_as_specified (processed_form (PyStr text)) 10
     = txt "aaaaaaaa"
  /\ preprocess_for_tts (PyStr text) 10
     <> Ok (truncate_as_specified (processed_form (PyStr text)) 10).
Proof.
  vm_compute. repeat split; try discriminate.
Qed.

End Truncation.

(** ** [TTSEngine.preprocess_text] *)

Section EnginePreprocess.

Lemma is_terminator_nonspace (c : ascii) :
  is_terminator c = true -> isspace c = false.
Proof.
  unfold is_terminator. intros H.
  apply orb_true_iff in H as [H|H];
    [apply orb_true_iff in H as [H|H]|];
    apply Ascii.eqb_eq in H; subst c; reflexivity.
Qed.

Lemma split_ws_not_nil (s : pystr) :
  existsb (fun c => negb (isspace c)) s = true -> split_ws s <> [].
Proof.
  unfold split_ws. induction s as [|c s IH]; [discriminate|].
  cbn [existsb words_aux]. destruct (words_aux s) as [w ws].
  destruct (isspace c); cbn [negb orb cons_nonempty]; [exact IH|].
  discriminate.
Qed.

Lemma split_ws_repeat_letter (n : nat) :
  split_ws (repeat "a"%char (S n)) = [repeat "a"%char (S n)].
Proof.
  unfold split_ws.
  assert (E : words_aux (repeat "a"%char (S n))
              = (repeat "a"%char (S n), [])).
  { induction n as [|n IH]; [reflexivity|].
    change (repeat "a"%char (S (S n)))
      with ("a"%char :: repeat "a"%char (S n)).
    cbn [words_aux]. now rewrite IH. }
  now rewrite E.
Qed.

Lemma firstn_repeat_succ {A} (x : A) (n : nat) :
  firstn n (repeat x (S n)) = repeat x n.
Proof.
  induction n as [|n IH]; [reflexivity|].
  change (repeat x (S (S n))) with (x :: repeat x (S n)).
  cbn [firstn]. rewrite IH. reflexivity.
Qed.

Lemma starts_ws_snoc (s : pystr) (c : ascii) :
  s <> [] -> starts_ws (s ++ [c]) = starts_ws s.
Proof. now destruct s. Qed.

(** C9, as the code has it: for an input with at least one
    non-whitespace character and a bound of at least 1, the output ends in
    ['.'], ['!'] or ['?'], is whitespace-collapsed and is at most
    [max_length + 1] long; the period is appended after the cut, and
    [max_length + 1] is reached. *)
Theorem preprocess_text_terminated (text : pystr) (max_length : Z) :
  existsb (fun c => negb (isspace c)) text = true ->
  (1 <= max_length)%Z ->
  let out := preprocess_text text max_length in
  ends_in_terminator out = true
  /\ collapsed out = true
  /\ (len out <= max_length + 1)%Z
  /\ (exists long : pystr,
        len (preprocess_text long max_length) = (max_length + 1)%Z).
Proof.
  intros Hsome Hmax out.
  assert (Hlong : exists long : pystr,
             len (preprocess_text long max_length) = (max_length + 1)%Z).
  { exists (repeat "a"%char (S (Z.to_nat max_length))).
    unfold preprocess_text. rewrite split_ws_repeat_letter.
    cbn [join].
    assert (El : len (repeat "a"%char (S (Z.to_nat max_length)))
                 = (max_length + 1)%Z)
      by (unfold len; rewrite repeat_length; lia).
    rewrite El.
    destruct (Z.ltb_spec max_length (max_length + 1)); [|lia].
    unfold slice_to. destruct (Z.leb_spec 0 max_length); [|lia].
    rewrite firstn_repeat_succ.
    destruct (Z.to_nat max_length) as [|k] eqn:Ek; [lia|].
    replace (repeat "a"%char (S k)) with (repeat "a"%char k ++ ["a"%char])
      by (rewrite <- repeat_cons; reflexivity).
    rewrite last_char_snoc.
    change (negb (is_terminator "a")) with true. cbv iota.
    unfold len. rewrite !length_app, repeat_length. cbn. lia. }
  subst out. unfold preprocess_text.
  pose proof (split_ws_tokens text) as Htok.
  pose proof (split_ws_not_nil text Hsome) as Hne.
  set (t0 := join [space] (split_ws text)).
  assert (H0 : t0 <> [])
    by (intros E; apply join_tokens_nil in E; auto).
  pose proof (join_tokens_collapsed _ Htok) as Hcol. fold t0 in Hcol.
  unfold collapsed in Hcol.
  apply andb_true_iff in Hcol as [Hcol Hplain].
  apply andb_true_iff in Hcol as [Hcol Hpair].
  apply andb_true_iff in Hcol as [Hstart _].
  apply negb_true_iff in Hstart, Hpair.
  set (t1 := if (max_length <? len t0)%Z
             then slice_to t0 max_length else t0).
  assert (E1 : exists k, t1 = firstn (S k) t0 /\ (len t1 <= max_length)%Z).
  { unfold t1. destruct (Z.ltb_spec max_length (len t0)) as [Hlt|Hge].
    - exists (Z.to_nat max_length - 1)%nat. split.
      + unfold slice_to. destruct (Z.leb_spec 0 max_length); [|lia].
        f_equal. lia.
      + now apply len_slice_to_bound; lia.
    - destruct t0 as [|c t0']; [contradiction|].
      exists (List.length t0'). split; [|assumption].
      symmetry. apply (firstn_all (c :: t0')). }
  destruct E1 as [k [E1 Hlen1]].
  assert (H1 : t1 <> [])
    by (rewrite E1; destruct t0; [contradiction | discriminate]).
  assert (Hs1 : starts_ws t1 = false)
    by (rewrite E1; now apply starts_ws_firstn).
  assert (Hp1 : has_ws_pair t1 = false)
    by (rewrite E1; now apply has_ws_pair_firstn).
  assert (Hf1 : forallb (fun c => negb (isspace c) || Ascii.eqb c space) t1
                = true)
    by (rewrite E1; now apply forallb_firstn).
  clearbody t1. clear E1.
  destruct (last_char t1) as [c|] eqn:El;
    [|apply last_char_none in El; contradiction].
  destruct (is_terminator c) eqn:Hc; cbn [negb].
  - repeat split; [| |lia|exact Hlong].
    + unfold ends_in_terminator. now rewrite El.
    + unfold collapsed, ends_ws.
      now rewrite Hs1, Hp1, Hf1, El, (is_terminator_nonspace c Hc).
  - repeat split; [| | |exact Hlong].
    + unfold ends_in_terminator. now rewrite last_char_snoc.
    + unfold collapsed, ends_ws.
      rewrite starts_ws_snoc, Hs1, last_char_snoc by assumption.
      rewrite has_ws_pair_snoc_nonspace, Hp1 by reflexivity.
      rewrite forallb_app, Hf1. reflexivity.
    + unfold len in *. rewrite length_app. cbn. lia.
Qed.

Lemma preprocess_text_terminated_witness :
  ends_in_terminator (preprocess_text (txt "  hello   world ") 7) = true
  /\ len (preprocess_text (txt "  hello   world ") 7) = 8%Z.
Proof.
  split.
  - apply (preprocess_text_terminated (txt "  hello   world ") 7);
      [reflexivity | lia].
  - reflexivity.
Defined.

(** C9 as stated fails on an input that is not empty but holds only
    whitespace: nothing is left after the split, no period is appended
    and the output is the empty string. *)
Lemma preprocess_text_blank_input :
  txt " " <> txt ""
  /\ preprocess_text (txt " ") 500 = txt ""
  /\ ends_in_terminator (preprocess_text (txt " ") 500) = false.
Proof. repeat split. discriminate. Qed.

End EnginePreprocess.

(** ** [TTSEngine.split_text] *)

Section SplitText.

Lemma len_lstrip (s : pystr) : (len (lstrip s) <= len s)%Z.
Proof.
  unfold len. induction s as [|c s IH]; cbn [lstrip]; [lia|].
  destruct (isspace c); cbn [List.length]; lia.
Qed.

Lemma len_rstrip (s : pystr) : (len (rstrip s) <= len s)%Z.
Proof.
  unfold len. induction s as [|c s IH]; cbn [rstrip]; [lia|].
  destruct (rstrip s); [destruct (isspace c)|]; cbn [List.length] in *; lia.
Qed.

Lemma len_strip (s : pystr) : (len (strip s) <= len s)%Z.
Proof.
  unfold strip. pose proof (len_lstrip (rstrip s)). pose proof (len_rstrip s).
  lia.
Qed.

Lemma rstrip_snoc_nonspace (s : pystr) (c : ascii) :
  isspace c = false -> rstrip (s ++ [c]) = s ++ [c].
Proof.
  intros Hc. induction s as [|d s IH]; cbn [app rstrip].
  - now rewrite Hc.
  - rewrite IH. now destruct s.
Qed.

Lemma starts_ws_lstrip (s : pystr) : starts_ws (lstrip s) = false.
Proof.
  induction s as [|c s IH]; [reflexivity|]. cbn [lstrip].
  destruct (isspace c) eqn:Hc; [exact IH | exact Hc].
Qed.

(** A sentence of [sentences_of] is left alone by [strip]. *)
Lemma strip_sentence (text s : pystr) :
  In s (sentences_of text) -> strip s = s.
Proof.
  unfold sentences_of. intros H. apply in_map_iff in H as [x [<- Hx]].
  apply filter_In in Hx as [_ Hx].
  assert (Hne : strip x <> [])
    by (intros E; rewrite E in Hx; discriminate).
  unfold strip at 1. rewrite rstrip_snoc_nonspace by reflexivity.
  apply lstrip_id. rewrite starts_ws_snoc by assumption.
  apply starts_ws_lstrip.
Qed.

Lemma flush_within (sents chunks : list pystr) (cur : pystr) (m : Z) :
  (forall s, In s sents -> strip s = s) ->
  Forall (chunk_within sents m) chunks ->
  cur = [] \/ chunk_within sents m cur ->
  Forall (chunk_within sents m) (flush chunks cur).
Proof.
  intros Hs Hc Hcur. unfold flush.
  destruct cur as [|c cur]; [assumption|]. cbn [truthy].
  apply Forall_app. split; [assumption|]. constructor; [|constructor].
  destruct Hcur as [Hcur|[Hcur|Hcur]]; [discriminate| |].
  - left. now rewrite (Hs _ Hcur).
  - right. pose proof (len_strip (c :: cur)). lia.
Qed.

(** C3 at a failing input: with a budget of 5 the sentences ["ab."],
    ["cd."] and ["e."] are packed into ["ab."] and ["cd. e."]; the second
    chunk holds two sentences and is 6 characters long.  The test adds the
    two lengths and leaves out the space that joins them.  With the
    default budget of 250 two sentences of 125 characters after a first
    chunk make a chunk of 251. *)
Theorem split_text_chunk_exceeds_budget :
  sentences_of (txt "ab.cd.e.") = [txt "ab."; txt "cd."; txt "e."]
  /\ split_text (txt "ab.cd.e.") 5 = [txt "ab."; txt "cd. e."]
  /\ (len (txt "cd. e.") > 5)%Z
  /\ (let a := repeat "a"%char 130 ++ [dot] in
      let b := repeat "b"%char 124 ++ [dot] in
      let c := repeat "c"%char 124 ++ [dot] in
      split_text (a ++ b ++ c) 250 = [a; b ++ [space] ++ c]
      /\ len (b ++ [space] ++ c) = 251%Z).
Proof. vm_compute. repeat split. Qed.

(** What does hold for every text and budget: a chunk is one of the
    sentences, returned unsplit whatever its length, or it is at most
    [max_chunk_length + 1] long. *)
Lemma split_text_chunk_bound (text : pystr) (max_chunk_length : Z) :
  Forall (fun chunk => chunk_within (sentences_of text) max_chunk_length chunk)
         (split_text text max_chunk_length).
Proof.
  unfold split_text.
  set (sents := sentences_of text).
  assert (Hinv : forall l st,
             (forall s, In s l -> In s sents) ->
             Forall (chunk_within sents max_chunk_length) (fst st) ->
             (snd st = [] \/ chunk_within sents max_chunk_length (snd st)) ->
             let st' := fold_left (pack max_chunk_length) l st in
             Forall (chunk_within sents max_chunk_length) (fst st')
             /\ (snd st' = []
                 \/ chunk_within sents max_chunk_length (snd st'))).
  { induction l as [|s l IH]; intros [chunks cur] Hl Hc Hcur; [now split|].
    cbn [fold_left]. apply IH; [intros; apply Hl; now right| |];
      unfold pack;
      destruct (Z.leb_spec (len cur + len s) max_chunk_length) as [Hfit|Hno];
      cbn [fst snd] in *; try assumption.
    - apply flush_within; [exact (strip_sentence text) | assumption..].
    - right. right. unfold len in *. rewrite !length_app. cbn. lia.
    - right. left. apply Hl. now left. }
  specialize (Hinv sents ([], []) (fun s H => H)
                   (Forall_nil _) (or_introl eq_refl)).
  destruct (fold_left (pack max_chunk_length) sents ([], [])) as [chunks cur].
  destruct Hinv as [Hc Hcur].
  apply flush_within; [exact (strip_sentence text) | assumption..].
Qed.

(** A single sentence longer than the budget comes back as one chunk. *)
Example split_text_oversized_sentence :
  split_text (txt "abcdefgh. ab.") 5 = [txt "abcdefgh."; txt "ab."].
Proof. reflexivity. Qed.

End SplitText.

(** ** [TTSEngine._generate_long_speech] and [TTSEngine.generate_speech] *)

Section Reassembly.

Context {sample voice : Type}.
Variable synthesize : pystr -> option voice -> result (list sample).
Variable rate : Z.
Variable v : option voice.

Lemma synthesize_chunks_ok (chunks : list pystr) (ws : list (list sample)) :
  Forall2 (fun c w => synthesize c v = Ok w) chunks ws ->
  forall acc r,
    synthesize_chunks sample voice synthesize rate v chunks acc r
    = Ok (acc ++ ws,
          match r, chunks with
          | None, _ :: _ => Some rate
          | _, _ => r
          end).
Proof.
  induction 1 as [|c w chunks ws Hc _ IH]; intros acc r.
  - cbn. rewrite app_nil_r. now destruct r.
  - cbn [synthesize_chunks]. rewrite Hc. cbn [bind]. rewrite IH.
    rewrite <- app_assoc. cbn [app].
    now destruct r, chunks.
Qed.

Lemma length_concat_fixed (L : nat) (ws : list (list sample)) :
  Forall (fun w => List.length w = L) ws ->
  List.length (concat ws) = L * List.length ws.
Proof.
  induction 1 as [|w ws Hw _ IH]; cbn [concat List.length]; [lia|].
  rewrite length_app, IH, Hw. lia.
Qed.

Lemma synthesize_all (L : nat) :
  (forall t, exists w, synthesize t v = Ok w /\ List.length w = L) ->
  forall chunks : list pystr,
  exists ws, Forall2 (fun c w => synthesize c v = Ok w) chunks ws
             /\ Forall (fun w => List.length w = L) ws.
Proof.
  intros HL. induction chunks as [|c chunks [ws [H2 HF]]].
  - exists []. split; constructor.
  - destruct (HL c) as [w [Hw Hl]].
    exists (w :: ws). split; constructor; assumption.
Qed.

(** C4, as the code has it: with a synthesis stub that answers every call
    with a waveform of [L] samples, whatever the text, a text split into
    [N >= 1] chunks is synthesised by the chunked path into a waveform of
    [L * N] samples at the model's sample rate; when [N = 1] the
    single-call path of [generate_speech] gives the same result. *)
Theorem chunked_synthesis_sample_count (L : nat) (text : pystr) :
  (forall t, exists w, synthesize t v = Ok w /\ List.length w = L) ->
  (forall t t', synthesize t v = synthesize t' v) ->
  let N := List.length (split_text text 250) in
  N <> 0%nat ->
  exists full,
    _generate_long_speech sample voice synthesize rate text v
    = Ok (full, Some rate)
    /\ List.length full = (L * N)%nat
    /\ (N = 1%nat ->
        generate_direct sample voice synthesize rate text v
        = Ok (full, Some rate)).
Proof.
  intros HL Hsame N HN. subst N. unfold _generate_long_speech.
  destruct (synthesize_all L HL (split_text text 250)) as [ws [H2 HF]].
  rewrite (synthesize_chunks_ok _ _ H2). cbn [bind app].
  pose proof (Forall2_length H2) as Hlen.
  destruct ws as [|w ws]; [rewrite Hlen in HN; now contradiction HN|].
  exists (concat (w :: ws)). cbn [np_concatenate bind].
  destruct (split_text text 250) as [|c chunks] eqn:Ec;
    [discriminate|].
  split; [reflexivity|]. split.
  - rewrite Hlen. now apply length_concat_fixed.
  - intros H1. destruct chunks; [|discriminate].
    inversion H2 as [|? ? ? ? Hc Hrest]; subst.
    inversion Hrest; subst.
    unfold generate_direct. rewrite (Hsame text c), Hc.
    cbn. now rewrite app_nil_r.
Qed.

End Reassembly.

Lemma chunked_synthesis_sample_count_witness :
  let text :=
    repeat "a"%char 200 ++ txt ". " ++ repeat "b"%char 200 ++ txt "." in
  exists full,
    _generate_long_speech Z unit (stub [1; 2; 3]%Z) 24000 text None
    = Ok (full, Some 24000%Z)
    /\ List.length full = (3 * List.length (split_text text 250))%nat
    /\ (List.length (split_text text 250) = 1%nat ->
        generate_direct Z unit (stub [1; 2; 3]%Z) 24000 text None
        = Ok (full, Some 24000%Z)).
Proof.
  intros text.
  apply (chunked_synthesis_sample_count (stub [1; 2; 3]%Z) 24000 None 3 text).
  - intros t. exists [1; 2; 3]%Z. split; reflexivity.
  - reflexivity.
  - vm_compute. discriminate.
Defined.

(** C4 as stated fails for [N = 0]: a text without sentence content is
    split into no chunk, and the chunked path raises on the empty
    concatenation instead of returning a waveform of 0 samples; 300 periods
    reach that path through [generate_speech]. *)
Lemma chunked_synthesis_of_no_chunk :
  split_text (txt "") 250 = []
  /\ _generate_long_speech Z unit (stub [1; 2; 3]%Z) 24000 (txt "") None
     = Raise ValueError
  /\ split_text (preprocess_text (repeat dot 300) 500) 250 = []
  /\ generate_speech Z unit (stub [1; 2; 3]%Z) 24000 (repeat dot 300) None
     = Raise ValueError.
Proof. vm_compute. repeat split. Qed.

(** ** [TTSEngine.save_audio] and [TTSEngine.text_to_speech_file] *)

Section AudioExport.

Context {sample voice : Type}.
Variable synthesize : pystr -> option voice -> result (list sample).
Variable rate : Z.
Variable to_int16 : list sample -> list Z.

(** No branch of [save_audio] hands a path back. *)
Lemma save_audio_returns_none (h : host) (audio : list sample)
      (sample_rate : option Z) (output_path : pystr)
      (done : list event) (r : returned) :
  save_audio sample to_int16 h audio sample_rate output_path
  = (done, Ok r) ->
  r = None.
Proof.
  unfold save_audio, write_wav.
  repeat match goal with
         | |- context [if ?b then _ else _] => destruct b
         | |- context [match ?o with Some _ => _ | None => _ end] =>
             destruct o
         end;
    intros E; inversion E; reflexivity.
Qed.

Lemma text_to_speech_file_returns_none (h : host) (text output_path : pystr)
      (vp : option voice) (done : list event) (r : returned) :
  text_to_speech_file sample voice synthesize rate to_int16 h text
                      output_path vp
  = (done, Ok r) ->
  r = None.
Proof.
  unfold text_to_speech_file.
  destruct (generate_speech _ _ _ _ _ _) as [[a sr]|e]; [|discriminate].
  destruct (save_audio _ _ _ _ _ _) as [d res] eqn:E.
  intros H. inversion H; subst.
  exact (save_audio_returns_none _ _ _ _ _ _ E).
Qed.

End AudioExport.

(** C1 at a failing input: with pydub unavailable and the target ["x.mp3"],
    the samples are written as WAV to ["x.wav"], no exception is raised, and
    the value handed back is [None], not the path ["x.wav"];
    [text_to_speech_file] passes that [None] on.  The same holds when pydub
    is there and the encoder is not. *)
Theorem save_audio_fallback_returns_no_path :
  save_audio Z (fun a => a) host_without_pydub [0; 1; -1]%Z (Some 24000%Z)
             (txt "x.mp3")
  = ([EnsuredParent (txt "x.mp3");
      WroteWav (txt "x.wav") 24000 [0; 1; -1]%Z], Ok None)
  /\ text_to_speech_file Z unit (stub [0; 1; -1]%Z) 24000 (fun a => a)
                         host_without_pydub (txt "Hello") (txt "x.mp3") None
     = ([EnsuredParent (txt "x.mp3");
         WroteWav (txt "x.wav") 24000 [0; 1; -1]%Z], Ok None)
  /\ save_audio Z (fun a => a) host_without_encoder [0; 1; -1]%Z
                (Some 24000%Z) (txt "x.mp3")
     = ([EnsuredParent (txt "x.mp3");
         WroteWav (txt "/tmp/tmp0.wav") 24000 [0; 1; -1]%Z;
         Removed (txt "/tmp/tmp0.wav");
         WroteWav (txt "x.wav") 24000 [0; 1; -1]%Z], Ok None).
Proof. repeat split. Qed.

(** ** [sorted(..., reverse=True)] *)

Section Sorting.

Context {A : Type} (key : A -> nat).

Lemma insert_desc_perm (x : A) (l : list A) :
  Permutation (x :: l) (insert_desc key x l).
Proof.
  induction l as [|y l IH]; cbn [insert_desc]; [reflexivity|].
  destruct (key x <? key y); [|reflexivity].
  rewrite perm_swap. now apply perm_skip.
Qed.

Lemma sorted_desc_perm (l : list A) : Permutation l (sorted_desc key l).
Proof.
  induction l as [|x l IH]; cbn [sorted_desc fold_right]; [reflexivity|].
  rewrite <- insert_desc_perm. now apply perm_skip.
Qed.

Lemma insert_desc_sorted (x : A) (l : list A) :
  StronglySorted (desc_by key) l ->
  StronglySorted (desc_by key) (insert_desc key x l).
Proof.
  induction 1 as [|y l Hs IH Hy]; cbn [insert_desc].
  - repeat constructor.
  - destruct (Nat.ltb_spec (key x) (key y)) as [Hlt|Hge].
    + constructor; [exact IH|].
      apply (Permutation_Forall (insert_desc_perm x l)).
      constructor; [unfold desc_by; lia | exact Hy].
    + constructor; [now constructor|].
      constructor; [exact Hge|].
      eapply Forall_impl; [|exact Hy]. unfold desc_by. intros; lia.
Qed.

Lemma sorted_desc_sorted (l : list A) :
  StronglySorted (desc_by key) (sorted_desc key l).
Proof.
  induction l as [|x l IH]; cbn [sorted_desc fold_right]; [constructor|].
  now apply insert_desc_sorted.
Qed.

End Sorting.

(** ** One substitution pass of [expand_abbreviations] *)

Section Pass.

Variables (k : pattern_kind) (lit repl : pystr).

Lemma last_char_some (x : pystr) :
  x <> [] -> exists c, last_char x = Some c.
Proof.
  intros H. destruct (last_char x) eqn:E; [eauto|].
  apply last_char_none in E. contradiction.
Qed.

Lemma char_before_nonempty (prev : option ascii) (x : pystr) :
  x <> [] -> char_before prev x = last_char x.
Proof.
  intros H. unfold char_before.
  destruct (last_char_some x H) as [c ->]. reflexivity.
Qed.

Lemma char_before_cons (prev : option ascii) (d : ascii) (x : pystr) :
  char_before prev (d :: x) = char_before (Some d) x.
Proof.
  destruct x as [|e x]; [reflexivity|].
  rewrite !char_before_nonempty by discriminate.
  now apply last_char_cons.
Qed.

(** The characters of a match are passed over. *)
Lemma re_sub_scan_skip (x : pystr) :
  forall prev post,
    re_sub_scan k lit repl prev (List.length x) (x ++ post)
    = re_sub_scan k lit repl (char_before prev x) 0 post.
Proof.
  induction x as [|c x IH]; intros prev post; [reflexivity|].
  cbn [List.length app re_sub_scan]. rewrite IH.
  now rewrite char_before_cons.
Qed.

(** Where the pattern matches nowhere, the text is left as it is. *)
Lemma re_sub_scan_no_match (s : pystr) :
  forall prev,
    (forall i, (i < List.length s)%nat ->
               match_here k lit (char_before prev (firstn i s)) (skipn i s)
               = false) ->
    re_sub_scan k lit repl prev 0 s = s.
Proof.
  induction s as [|d s IH]; intros prev H; [reflexivity|].
  cbn [re_sub_scan].
  pose proof (H 0%nat ltac:(cbn; lia)) as H0. cbn in H0. rewrite H0.
  f_equal. apply IH. intros i Hi.
  specialize (H (S i) ltac:(cbn; lia)).
  cbn [firstn skipn] in H. now rewrite char_before_cons in H.
Qed.

(** The leftmost match is replaced and the scan goes on behind it. *)
Lemma re_sub_scan_first_match (pre : pystr) :
  forall prev post,
    lit <> [] ->
    match_here k lit (char_before prev pre) (lit ++ post) = true ->
    (forall i, (i < List.length pre)%nat ->
               match_here k lit (char_before prev (firstn i pre))
                          (skipn i (pre ++ lit ++ post)) = false) ->
    re_sub_scan k lit repl prev 0 (pre ++ lit ++ post)
    = pre ++ repl ++ re_sub_scan k lit repl (last_char lit) 0 post.
Proof.
  induction pre as [|d pre IH]; intros prev post Hne Hm Hnone.
  - assert (El : exists c l, lit = c :: l)
      by (destruct lit; [contradiction | eauto]).
    destruct El as [c [l El]].
    change (char_before prev []) with prev in Hm. cbn [app].
    assert (Et : lit ++ post = c :: l ++ post) by now rewrite El.
    rewrite Et in *. cbn [re_sub_scan]. rewrite Hm.
    replace (List.length lit - 1)%nat with (List.length l)
      by (rewrite El; cbn; lia).
    rewrite re_sub_scan_skip. do 2 f_equal.
    rewrite <- (char_before_cons None), <- El.
    now apply char_before_nonempty.
  - cbn [app re_sub_scan].
    pose proof (Hnone 0%nat ltac:(cbn; lia)) as H0. cbn in H0. rewrite H0.
    f_equal. apply IH; [assumption| |].
    + now rewrite <- (char_before_cons prev).
    + intros i Hi. specialize (Hnone (S i) ltac:(cbn; lia)).
      cbn [firstn skipn app] in Hnone.
      now rewrite char_before_cons in Hnone.
Qed.

End Pass.

(** ** [TextProcessor.expand_abbreviations] *)

Section Abbreviations.

(** Settles, for one abbreviation, that its pattern matches exactly the
    bounded occurrences: the kind of pattern is computed, the three tests are
    then compared by cases. *)
Ltac pattern_cases :=
  let prev := fresh "prev" in
  let rest := fresh "rest" in
  intros prev rest;
  unfold match_here, bounded_occurrence, word_boundary;
  cbv zeta;
  match goal with
  | |- context [pattern_of ?a] =>
      let k := eval vm_compute in (pattern_of a) in
      change (pattern_of a) with k;
      cbv iota;
      generalize (isword_opt prev)
                 (isword_opt (hd_error (skipn (List.length a) rest)))
                 (starts_with a rest)
  end;
  intros [] [] []; reflexivity.

(** For every entry of the table, either pattern amounts to an exact
    occurrence with no word character on either side. *)
Lemma abbreviation_patterns :
  Forall (fun item : pystr * pystr =>
            fst item <> []
            /\ forall prev rest,
                 match_here (pattern_of (fst item)) (fst item) prev rest
                 = bounded_occurrence (fst item) prev rest)
         ABBREVIATIONS.
Proof.
  unfold ABBREVIATIONS. cbn [map fst snd].
  repeat (apply Forall_cons;
          [split; [vm_compute; discriminate | pattern_cases]|]).
  apply Forall_nil.
Qed.

Lemma abbreviation_pattern (a e : pystr) :
  In (a, e) ABBREVIATIONS ->
  a <> []
  /\ forall prev rest,
       match_here (pattern_of a) a prev rest = bounded_occurrence a prev rest.
Proof.
  intros H. pose proof abbreviation_patterns as HF.
  rewrite Forall_forall in HF. exact (HF (a, e) H).
Qed.

(** C6: the entries of the table are tried longest first, entries of
    equal length in the order of the table; every pass replaces, from left
    to right, each exact (case-sensitive) occurrence of its abbreviation
    that has no word character before or after it, and leaves a text
    without such an occurrence as it is; in particular the three values
    the specification lists. *)
Theorem expand_abbreviations_longest_first :
  Permutation ABBREVIATIONS sorted_abbrevs
  /\ StronglySorted longer_first sorted_abbrevs
  /\ map fst sorted_abbrevs
     = map txt
         [ "approx."; "Prof."; "Blvd."; "Corp."; "Sept."; "Mrs."; "e.g.";
           "i.e."; "etc."; "min."; "max."; "Ave."; "Ltd."; "Inc."; "Jan.";
           "Feb."; "Mar."; "Apr."; "Aug."; "Sep."; "Oct."; "Nov."; "Dec.";
           "Dr."; "Mr."; "Ms."; "vs."; "No."; "no."; "St."; "Rd."; "Co.";
           "v."; "vs"; "v" ]%string
  /\ (forall s, s <> [] ->
        expand_abbreviations (PyStr s)
        = Ok (PyStr (fold_left expand_one sorted_abbrevs s)))
  /\ (forall a e s, expand_one s (a, e)
                    = re_sub_scan (pattern_of a) a e None 0 s)
  /\ (forall a e, In (a, e) ABBREVIATIONS -> forall prev s,
        (forall i, (i < List.length s)%nat ->
           bounded_occurrence a (char_before prev (firstn i s)) (skipn i s)
           = false) ->
        re_sub_scan (pattern_of a) a e prev 0 s = s)
  /\ (forall a e, In (a, e) ABBREVIATIONS -> forall prev pre post,
        bounded_occurrence a (char_before prev pre) (a ++ post) = true ->
        (forall i, (i < List.length pre)%nat ->
           bounded_occurrence a (char_before prev (firstn i pre))
                              (skipn i (pre ++ a ++ post)) = false) ->
        re_sub_scan (pattern_of a) a e prev 0 (pre ++ a ++ post)
        = pre ++ e ++ re_sub_scan (pattern_of a) a e (last_char a) 0 post)
  /\ expand_abbreviations (PyStr (txt "Dr. Smith"))
     = Ok (PyStr (txt "Doctor Smith"))
  /\ expand_abbreviations (PyStr (txt "Mr. and Mrs. Jones"))
     = Ok (PyStr (txt "Mister and Missus Jones"))
  /\ expand_abbreviations (PyStr (txt "e.g. example"))
     = Ok (PyStr (txt "for example example")).
Proof.
  split; [apply sorted_desc_perm|].
  split; [apply (sorted_desc_sorted abbrev_key)|].
  split; [vm_compute; reflexivity|].
  split; [intros [|c s] Hs; [contradiction | reflexivity]|].
  split; [reflexivity|].
  split; [|split; [|repeat split; vm_compute; reflexivity]].
  - intros a e Hin prev s Hnone.
    destruct (abbreviation_pattern a e Hin) as [_ Hpat].
    apply re_sub_scan_no_match. intros i Hi.
    rewrite Hpat. now apply Hnone.
  - intros a e Hin prev pre post Hocc Hnone.
    destruct (abbreviation_pattern a e Hin) as [Hne Hpat].
    apply re_sub_scan_first_match; [assumption| |].
    + now rewrite Hpat.
    + intros i Hi. rewrite Hpat. now apply Hnone.
Qed.

Lemma expand_abbreviations_longest_first_witness :
  expand_one (txt "see Dr. Who") (txt "Dr.", txt "Doctor")
  = txt "see " ++ txt "Doctor"
      ++ re_sub_scan Lookaround (txt "Dr.") (txt "Doctor")
           (Some "."%char) 0 (txt " Who").
Proof.
  pose proof expand_abbreviations_longest_first as H.
  destruct H as (_ & _ & _ & _ & _ & _ & H & _).
  apply (H (txt "Dr.") (txt "Doctor")
           ltac:(vm_compute; tauto) None (txt "see ") (txt " Who")).
  - reflexivity.
  - intros i Hi. do 4 (destruct i as [|i]; [reflexivity|]).
    cbn in Hi. lia.
Defined.

(** Matching is case-sensitive and bounded by non-word characters, and the
    longer abbreviation wins. *)
Example expand_abbreviations_boundaries :
  expand_abbreviations (PyStr (txt "dr. smith"))
  = Ok (PyStr (txt "dr. smith"))
  /\ expand_abbreviations (PyStr (txt "Dr.Smith etc.x advs"))
     = Ok (PyStr (txt "Dr.Smith etc.x advs"))
  /\ expand_abbreviations (PyStr (txt "A vs. B vs C v. D v E"))
     = Ok (PyStr (txt "A versus B versus C versus D versus E")).
Proof. vm_compute. repeat split. Qed.

End Abbreviations.

(** * Further properties of the code *)

(** ** Cleaning and splitting into words *)

Section CleanRoundTrip.

Lemma re_sub_ws_collapsed (s : pystr) :
  has_ws_pair s = false ->
  forallb (fun c => negb (isspace c) || Ascii.eqb c space) s = true ->
  re_sub_ws false s = s
  /\ (starts_ws s = false -> re_sub_ws true s = s).
Proof.
  induction s as [|c s IH]; intros Hp Hf; [split; reflexivity|].
  cbn [forallb] in Hf. apply andb_true_iff in Hf as [Hc Hf].
  cbn [re_sub_ws starts_ws]. destruct (isspace c) eqn:Ec.
  - cbn [negb orb] in Hc. apply Ascii.eqb_eq in Hc. subst c.
    assert (Hs : starts_ws s = false).
    { destruct s as [|d s]; [reflexivity|]. cbn [has_ws_pair] in Hp.
      apply orb_false_iff in Hp as [Hp _]. now rewrite Ec in Hp. }
    rewrite has_ws_pair_cons_sep in Hp by assumption.
    destruct (IH Hp Hf) as [_ IH2].
    split; [now rewrite IH2 | discriminate].
  - rewrite has_ws_pair_cons_nonspace in Hp by assumption.
    destruct (IH Hp Hf) as [IH1 _]. rewrite IH1. split; reflexivity.
Qed.

Lemma rstrip_id (s : pystr) : ends_ws s = false -> rstrip s = s.
Proof.
  induction s as [|c s IH]; intros H; [reflexivity|].
  cbn [rstrip]. destruct s as [|d s].
  - cbn in H. cbn. now rewrite H.
  - unfold ends_ws in *. rewrite last_char_cons in H by discriminate.
    now rewrite (IH H).
Qed.

Lemma clean_text_collapsed (s : pystr) :
  collapsed s = true -> clean_text (PyStr s) = s.
Proof.
  unfold collapsed. intros H.
  apply andb_true_iff in H as [H Hplain].
  apply andb_true_iff in H as [H Hpair].
  apply andb_true_iff in H as [Hstart Hend].
  apply negb_true_iff in Hstart, Hend, Hpair.
  unfold clean_text, str, strip.
  destruct (re_sub_ws_collapsed s Hpair Hplain) as [-> _].
  rewrite rstrip_id by assumption. now apply lstrip_id.
Qed.

(** [clean_text] leaves a string as it is exactly when the string is already
    whitespace-collapsed. *)
Theorem clean_text_fixes_collapsed (s : pystr) :
  clean_text (PyStr s) = s <-> collapsed s = true.
Proof.
  split; [|apply clean_text_collapsed].
  intros E. rewrite <- E, clean_text_join_split.
  apply join_tokens_collapsed, split_ws_tokens.
Qed.

(** Cleaning twice is cleaning once, whatever the argument. *)
Theorem clean_text_idempotent (x : pyobj) :
  clean_text (PyStr (clean_text x)) = clean_text x.
Proof.
  apply clean_text_collapsed.
  destruct x as [|s|b r]; [reflexivity| |];
    cbn [clean_text str]; change (strip (re_sub_ws false ?t))
      with (clean_text (PyStr t));
    rewrite clean_text_join_split;
    apply join_tokens_collapsed, split_ws_tokens.
Qed.

Lemma words_aux_token_app (w r : pystr) :
  Forall nonspace w ->
  words_aux (w ++ r) = (w ++ fst (words_aux r), snd (words_aux r)).
Proof.
  induction 1 as [|c w Hc _ IH]; [cbn [app]; now destruct (words_aux r)|].
  cbn [app words_aux]. rewrite IH. unfold nonspace in Hc. now rewrite Hc.
Qed.

(** Joining words with single spaces and splitting again gives the words
    back. *)
Lemma split_ws_join (l : list pystr) :
  Forall is_token l -> split_ws (join [space] l) = l.
Proof.
  unfold split_ws. induction 1 as [|w l [Hne Hw] Hl IH]; [reflexivity|].
  rewrite join_cons, words_aux_token_app by assumption.
  destruct l as [|x l'].
  - cbn. rewrite app_nil_r. now destruct w.
  - cbn [after_first words_aux].
    assert (Hs : isspace space = true) by reflexivity. rewrite Hs.
    destruct (words_aux (join [space] (x :: l'))) as [w' ws'].
    cbn [fst snd]. rewrite IH, app_nil_r. now destruct w.
Qed.

(** [clean_text] keeps the words of a string: the same words, in the same
    order. *)
Theorem clean_text_keeps_words (s : pystr) :
  split_ws (clean_text (PyStr s)) = split_ws s.
Proof.
  rewrite clean_text_join_split. apply split_ws_join, split_ws_tokens.
Qed.

End CleanRoundTrip.

(** ** [TextProcessor.estimate_duration] *)

Section EstimateDuration.

Lemma clean_text_nil_iff (s : pystr) :
  clean_text (PyStr s) = [] <-> split_ws s = [].
Proof.
  rewrite clean_text_join_split. split.
  - apply join_tokens_nil, split_ws_tokens.
  - now intros ->.
Qed.

(** [estimate_duration] counts the whitespace-separated words of the text as
    it was given: cleaning first does not change the count.  A text without
    a word gives [0.0] before any division, so also at a rate of 0; a text
    with words gives [(word_count / rate) * 60] with at least one word, and
    raises [ZeroDivisionError] at a rate of 0. *)
Theorem estimate_duration_counts_words (s : pystr) (wpm : option Z) :
  let rate :=
    match wpm with
    | None => 150%Z
    | Some w => w
    end in
  let n := List.length (split_ws s) in
  (n = 0%nat -> estimate_duration (PyStr s) wpm = ZeroSeconds)
  /\ (n <> 0%nat -> rate <> 0%Z ->
      estimate_duration (PyStr s) wpm = PerMinute n rate)
  /\ (n <> 0%nat -> rate = 0%Z ->
      estimate_duration (PyStr s) wpm = ZeroDivisionRaised).
Proof.
  intros rate n. unfold estimate_duration, DEFAULT_WPM.
  change (match wpm with Some w => w | None => 150%Z end) with rate.
  assert (Ew : split_ws (clean_text (PyStr s)) = split_ws s).
  { rewrite clean_text_join_split. apply split_ws_join, split_ws_tokens. }
  rewrite Ew. fold n.
  assert (Hn : n = 0%nat <-> clean_text (PyStr s) = []).
  { rewrite clean_text_nil_iff. unfold n.
    destruct (split_ws s); cbn; split; congruence. }
  destruct (truthy (PyStr s)) eqn:Ht; cbn [negb].
  - destruct (clean_text (PyStr s)) as [|c r] eqn:Ec; cbn [truthy negb].
    + repeat split; intros; try reflexivity; tauto.
    + assert (n <> 0%nat) by (rewrite Hn; discriminate).
      destruct (Z.eqb_spec rate 0); repeat split; intros;
        try reflexivity; try tauto; lia.
  - apply truthy_str_false in Ht. subst s.
    repeat split; intros; try reflexivity; now cbn in *.
Qed.

Lemma estimate_duration_counts_words_witness :
  estimate_duration (PyStr (txt "  one two   three ")) None
  = PerMinute 3 150.
Proof.
  apply (proj1 (proj2 (estimate_duration_counts_words
                         (txt "  one two   three ") None)));
    [vm_compute; discriminate | discriminate].
Defined.

End EstimateDuration.

(** ** [TextProcessor.expand_abbreviations] on text without abbreviations *)

Section ExpandPlain.

Lemma starts_with_In (lit s : pystr) (c : ascii) :
  starts_with lit s = true -> In c lit -> In c s.
Proof.
  revert s. induction lit as [|a lit IH]; intros s H Hin; [destruct Hin|].
  destruct s as [|d s]; [discriminate|]. cbn [starts_with] in H.
  apply andb_true_iff in H as [Ha H]. apply Ascii.eqb_eq in Ha. subst d.
  destruct Hin as [->|Hin]; [now left | right; now apply IH].
Qed.

Lemma In_skipn {A} (x : A) (i : nat) (l : list A) :
  In x (skipn i l) -> In x l.
Proof.
  intros H. rewrite <- (firstn_skipn i l). apply in_or_app. now right.
Qed.

(** A pass whose abbreviation has a character the text lacks changes
    nothing. *)
Lemma re_sub_missing_char (k : pattern_kind) (lit repl s : pystr)
      (c : ascii) :
  In c lit -> ~ In c s -> re_sub k lit repl s = s.
Proof.
  intros Hc Hs. apply re_sub_scan_no_match. intros i _.
  unfold match_here.
  destruct (starts_with lit (skipn i s)) eqn:E; [|reflexivity].
  exfalso. apply Hs, (In_skipn c i), (starts_with_In lit); assumption.
Qed.

Lemma abbreviations_have_dot_or_v :
  forallb (fun item : pystr * pystr => existsb dot_or_v (fst item))
          sorted_abbrevs = true.
Proof. vm_compute. reflexivity. Qed.

(** A text without a period and without the letter v holds no abbreviation
    of the table: [expand_abbreviations] hands it back unchanged. *)
Theorem expand_abbreviations_plain_text (s : pystr) :
  ~ In dot s -> ~ In "v"%char s ->
  expand_abbreviations (PyStr s) = Ok (PyStr s).
Proof.
  intros Hdot Hv. unfold expand_abbreviations.
  destruct (truthy (PyStr s)); cbn [negb]; [|reflexivity].
  do 2 f_equal. unfold expand_all.
  pose proof abbreviations_have_dot_or_v as H.
  induction sorted_abbrevs as [|[a e] items IH]; [reflexivity|].
  cbn [forallb fst] in H. apply andb_true_iff in H as [Ha H].
  cbn [fold_left expand_one].
  apply existsb_exists in Ha as [c [Hin Hc]].
  assert (Hs : ~ In c s).
  { unfold dot_or_v in Hc. apply orb_true_iff in Hc as [Hc|Hc];
      apply Ascii.eqb_eq in Hc; now subst c. }
  rewrite (re_sub_missing_char _ a e s c Hin Hs). now apply IH.
Qed.

Lemma expand_abbreviations_plain_text_witness :
  expand_abbreviations (PyStr (txt "Hello world, how are you?"))
  = Ok (PyStr (txt "Hello world, how are you?")).
Proof.
  apply expand_abbreviations_plain_text;
    cbn; intros H; repeat (destruct H as [H|H]; [discriminate|]);
    exact H.
Defined.

End ExpandPlain.

(** ** Validation followed by preprocessing *)

Section ValidatedText.

Lemma re_sub_scan_keeps_nonspace (k : pattern_kind) (lit repl s : pystr) :
  has_nonspace repl = true ->
  forall prev,
    has_nonspace s = true ->
    has_nonspace (re_sub_scan k lit repl prev 0 s) = true.
Proof.
  intros Hrepl. unfold has_nonspace in *.
  induction s as [|c s IH]; intros prev Hs; [discriminate|].
  cbn [re_sub_scan]. destruct (match_here k lit prev (c :: s)).
  - rewrite existsb_app, Hrepl. reflexivity.
  - cbn [existsb] in *. destruct (negb (isspace c)); [reflexivity|].
    cbn [orb] in *. now apply IH.
Qed.

Lemma expansions_have_nonspace :
  forallb (fun item : pystr * pystr => has_nonspace (snd item))
          sorted_abbrevs = true.
Proof. vm_compute. reflexivity. Qed.

Lemma expand_all_keeps_nonspace (s : pystr) :
  has_nonspace s = true ->
  has_nonspace (expand_all sorted_abbrevs s) = true.
Proof.
  unfold expand_all. pose proof expansions_have_nonspace as H.
  revert s. induction sorted_abbrevs as [|[a e] items IH]; intros s Hs;
    [assumption|].
  cbn [forallb snd] in H. apply andb_true_iff in H as [He H].
  cbn [fold_left expand_one]. apply IH; [assumption|].
  now apply re_sub_scan_keeps_nonspace.
Qed.

Lemma has_nonspace_head (s : pystr) :
  s <> [] -> starts_ws s = false -> has_nonspace s = true.
Proof.
  destruct s as [|c s]; [contradiction|]. cbn. now intros _ ->.
Qed.

Lemma clean_text_of_nonspace (s : pystr) :
  has_nonspace s = true ->
  clean_text (PyStr s) <> []
  /\ starts_ws (clean_text (PyStr s)) = false
  /\ has_ws_pair (clean_text (PyStr s)) = false.
Proof.
  intros H. rewrite clean_text_join_split.
  pose proof (split_ws_tokens s) as Htok.
  pose proof (split_ws_not_nil s H) as Hne.
  split; [|split].
  - intros E. apply join_tokens_nil in E; auto.
  - now apply join_tokens_starts.
  - now apply join_tokens_no_pair.
Qed.

Lemma firstn_not_nil {A} (n : nat) (l : list A) :
  (1 <= n)%nat -> l <> [] -> firstn n l <> [].
Proof. destruct n, l; cbn; intros; try lia; congruence. Qed.

Lemma truncate_keeps_shape (p : pystr) (max_length : Z) :
  (1 <= max_length)%Z -> p <> [] ->
  starts_ws p = false -> has_ws_pair p = false ->
  truncate p max_length <> []
  /\ starts_ws (truncate p max_length) = false
  /\ has_ws_pair (truncate p max_length) = false.
Proof.
  intros Hm Hne Hs Hp. unfold truncate.
  destruct (Z.ltb_spec max_length (len p)); [|auto].
  assert (Ecut : slice_to p max_length = firstn (Z.to_nat max_length) p).
  { unfold slice_to. now destruct (Z.leb_spec 0 max_length); [|lia]. }
  rewrite Ecut. set (cut := firstn (Z.to_nat max_length) p).
  assert (Hc : cut <> []) by (apply firstn_not_nil; [lia | assumption]).
  assert (Hcs : starts_ws cut = false) by now apply starts_ws_firstn.
  assert (Hcp : has_ws_pair cut = false) by now apply has_ws_pair_firstn.
  unfold beyond_80_percent.
  destruct (Z.ltb_spec (4 * max_length) (5 * rfind space cut)); [|auto].
  unfold slice_to. destruct (Z.leb_spec 0 (rfind space cut)); [|lia].
  split; [|split].
  - apply firstn_not_nil; [lia | assumption].
  - now apply starts_ws_firstn.
  - now apply has_ws_pair_firstn.
Qed.

Lemma validated_text_shape (text : pyobj) (max_length : Z)
      (min_length : option Z) :
  validate_text text max_length min_length = (true, None) ->
  exists p,
    preprocess_for_tts text max_length = Ok p
    /\ p <> []
    /\ (len p <= max_length)%Z
    /\ starts_ws p = false.
Proof.
  unfold validate_text. intros H.
  destruct (truthy text) eqn:Ht; cbn [negb] in H; [|discriminate].
  assert (Ec : clean_text (PyStr (str text)) = clean_text text)
    by (destruct text; [discriminate | reflexivity..]).
  rewrite Ec in H.
  assert (Hstart : starts_ws (clean_text text) = false).
  { rewrite <- Ec, clean_text_join_split.
    apply join_tokens_starts, split_ws_tokens. }
  destruct (clean_text text) as [|c r] eqn:Eclean; [discriminate|].
  cbn [truthy negb] in H.
  destruct (len (c :: r) <? _)%Z; [discriminate|].
  destruct (Z.ltb_spec max_length (len (c :: r))); [discriminate|].
  assert (Hm : (1 <= max_length)%Z) by (unfold len in *; cbn in *; lia).
  rewrite preprocess_for_tts_unfold, Ht. unfold processed_form.
  rewrite Eclean.
  assert (Hns : has_nonspace (c :: r) = true).
  { apply has_nonspace_head; [discriminate | exact Hstart]. }
  apply expand_all_keeps_nonspace in Hns.
  destruct (clean_text_of_nonspace _ Hns) as [Hne [Hs Hp]].
  eexists. split; [reflexivity|].
  destruct (truncate_keeps_shape _ max_length Hm Hne Hs Hp) as [H1 [H2 H3]].
  repeat split; try assumption. apply len_truncate. lia.
Qed.

(** What the synthesis endpoint relies on: a text that [validate_text]
    accepts under a limit is turned by [preprocess_for_tts], under the same
    limit, into a string that is not empty, is at most [max_length] long,
    starts with a non-whitespace character and has no run of whitespace. *)
Theorem validated_text_preprocesses (text : pyobj) (max_length : Z)
        (min_length : option Z) :
  validate_text text max_length min_length = (true, None) ->
  exists p,
    preprocess_for_tts text max_length = Ok p
    /\ p <> []
    /\ (len p <= max_length)%Z
    /\ starts_ws p = false
    /\ has_ws_pair p = false.
Proof.
  unfold validate_text. intros H.
  destruct (truthy text) eqn:Ht; cbn [negb] in H; [|discriminate].
  assert (Ec : clean_text (PyStr (str text)) = clean_text text)
    by (destruct text; [discriminate | reflexivity..]).
  rewrite Ec in H.
  assert (Hstart : starts_ws (clean_text text) = false).
  { rewrite <- Ec, clean_text_join_split.
    apply join_tokens_starts, split_ws_tokens. }
  destruct (clean_text text) as [|c r] eqn:Eclean; [discriminate|].
  cbn [truthy negb] in H.
  destruct (len (c :: r) <? _)%Z; [discriminate|].
  destruct (Z.ltb_spec max_length (len (c :: r))); [discriminate|].
  assert (Hm : (1 <= max_length)%Z) by (unfold len in *; cbn in *; lia).
  rewrite preprocess_for_tts_unfold, Ht. unfold processed_form.
  rewrite Eclean.
  assert (Hns : has_nonspace (c :: r) = true).
  { apply has_nonspace_head; [discriminate | exact Hstart]. }
  apply expand_all_keeps_nonspace in Hns.
  destruct (clean_text_of_nonspace _ Hns) as [Hne [Hs Hp]].
  eexists. split; [reflexivity|].
  destruct (truncate_keeps_shape _ max_length Hm Hne Hs Hp) as [H1 [H2 H3]].
  repeat split; try assumption. apply len_truncate. lia.
Qed.

Lemma validated_text_preprocesses_witness :
  exists p,
    preprocess_for_tts (PyStr (txt " Dr.  Smith vs. Mr. Jones ")) 30 = Ok p
    /\ p <> []
    /\ (len p <= 30)%Z
    /\ starts_ws p = false
    /\ has_ws_pair p = false.
Proof.
  apply (validated_text_preprocesses _ 30 None). reflexivity.
Defined.

End ValidatedText.

(** ** [TTSEngine.preprocess_text], again *)

Section EnginePreprocessAgain.

(** The output is empty, or a non-empty collapsed prefix [t] of the joined
    words, at most [max_length] long, followed by a period when [t] does not
    end in a terminator. *)
Lemma preprocess_text_shape (text : pystr) (max_length : Z) :
  (0 <= max_length)%Z ->
  preprocess_text text max_length = []
  \/ exists t, t <> []
               /\ starts_ws t = false
               /\ has_ws_pair t = false
               /\ plain_spaces t = true
               /\ (len t <= max_length)%Z
               /\ (ends_in_terminator t = true
                   /\ preprocess_text text max_length = t
                   \/ ends_in_terminator t = false
                      /\ preprocess_text text max_length = t ++ [dot]).
Proof.
  intros Hm. unfold preprocess_text.
  pose proof (split_ws_tokens text) as Htok.
  set (t0 := join [space] (split_ws text)).
  pose proof (join_tokens_starts _ Htok) as Hs0.
  pose proof (join_tokens_no_pair _ Htok) as Hp0.
  pose proof (join_tokens_plain _ Htok) as Hf0.
  fold t0 in Hs0, Hp0, Hf0.
  set (t1 := if (max_length <? len t0)%Z
             then slice_to t0 max_length else t0).
  assert (E1 : exists k, t1 = firstn k t0 /\ (len t1 <= max_length)%Z).
  { unfold t1. destruct (Z.ltb_spec max_length (len t0)) as [Hlt|Hge].
    - exists (Z.to_nat max_length). split.
      + unfold slice_to. now destruct (Z.leb_spec 0 max_length); [|lia].
      + now apply len_slice_to_bound.
    - exists (List.length t0). split; [|assumption].
      symmetry. apply firstn_all. }
  destruct E1 as [k [E1 Hlen]].
  assert (Hs1 : starts_ws t1 = false)
    by (rewrite E1; now apply starts_ws_firstn).
  assert (Hp1 : has_ws_pair t1 = false)
    by (rewrite E1; now apply has_ws_pair_firstn).
  assert (Hf1 : plain_spaces t1 = true)
    by (rewrite E1; now apply forallb_firstn).
  clearbody t1. clear E1.
  destruct (last_char t1) as [c|] eqn:El.
  - right. exists t1. unfold ends_in_terminator. rewrite El.
    assert (Hne : t1 <> []) by (intros ->; discriminate).
    destruct (is_terminator c); cbn [negb]; repeat split; auto.
  - left. now apply last_char_none.
Qed.

Lemma preprocess_text_nil (max_length : Z) :
  preprocess_text [] max_length = [].
Proof.
  unfold preprocess_text. cbn [split_ws words_aux cons_nonempty join].
  destruct (max_length <? len [])%Z; [|reflexivity].
  unfold slice_to. destruct (0 <=? max_length)%Z; now rewrite firstn_nil.
Qed.

Lemma collapsed_join_split (s : pystr) :
  collapsed s = true -> join [space] (split_ws s) = s.
Proof.
  intros H. rewrite <- clean_text_join_split. now apply clean_text_collapsed.
Qed.

(** Preprocessing a preprocessed text changes nothing: the cut and the
    appended period are stable. *)
Theorem preprocess_text_idempotent (text : pystr) (max_length : Z) :
  (0 <= max_length)%Z ->
  preprocess_text (preprocess_text text max_length) max_length
  = preprocess_text text max_length.
Proof.
  intros Hm.
  destruct (preprocess_text_shape text max_length Hm)
    as [->|[t [Hne [Hs [Hp [Hf [Hlen [[Ht ->]|[Ht ->]]]]]]]]];
    [apply preprocess_text_nil| |].
  - unfold ends_in_terminator in Ht.
    destruct (last_char t) as [c|] eqn:El; [|discriminate].
    unfold preprocess_text. rewrite collapsed_join_split.
    + destruct (Z.ltb_spec max_length (len t)); [lia|].
      now rewrite El, Ht.
    + unfold collapsed, ends_ws. fold (plain_spaces t).
      now rewrite Hs, Hp, Hf, El, (is_terminator_nonspace c Ht).
  - unfold preprocess_text. rewrite collapsed_join_split.
    + assert (Elen : len (t ++ [dot]) = (len t + 1)%Z)
        by (unfold len; rewrite length_app; cbn; lia).
      rewrite Elen.
      destruct (Z.ltb_spec max_length (len t + 1)) as [Hcut|Hfit].
      * assert (Es : slice_to (t ++ [dot]) max_length = t).
        { unfold slice_to. destruct (Z.leb_spec 0 max_length); [|lia].
          replace (Z.to_nat max_length) with (List.length t + 0)%nat
            by (unfold len in *; lia).
          rewrite firstn_app_2. cbn. apply app_nil_r. }
        rewrite Es. unfold ends_in_terminator in Ht.
        destruct (last_char t) as [c|] eqn:El.
        -- now rewrite Ht.
        -- apply last_char_none in El. contradiction.
      * now rewrite last_char_snoc.
    + unfold collapsed, ends_ws. fold (plain_spaces (t ++ [dot])).
      rewrite starts_ws_snoc, Hs, last_char_snoc by assumption.
      rewrite has_ws_pair_snoc_nonspace, Hp by reflexivity.
      unfold plain_spaces in *. rewrite forallb_app, Hf. reflexivity.
Qed.

Lemma preprocess_text_idempotent_witness :
  preprocess_text (preprocess_text (txt " one  two three") 9) 9
  = preprocess_text (txt " one  two three") 9.
Proof. apply preprocess_text_idempotent. lia. Defined.

(** Whatever limit the caller validated against, [generate_speech] cuts the
    collapsed text at 500 characters: what it hands on is at most 501 long,
    and two texts whose collapsed forms are longer than 500 and agree on
    their first 500 characters give the same result. *)
Theorem generate_speech_cuts_at_500 {sample voice : Type}
        (synthesize : pystr -> option voice -> result (list sample))
        (rate : Z) (v : option voice) (text text' : pystr) :
  (len (preprocess_text text 500) <= 501)%Z
  /\ ((500 < len (join [space] (split_ws text)))%Z ->
      (500 < len (join [space] (split_ws text')))%Z ->
      firstn 500 (join [space] (split_ws text))
      = firstn 500 (join [space] (split_ws text')) ->
      generate_speech sample voice synthesize rate text v
      = generate_speech sample voice synthesize rate text' v).
Proof.
  split.
  - destruct (preprocess_text_shape text 500 ltac:(lia))
      as [->|[t [_ [_ [_ [_ [Hlen [[_ ->]|[_ ->]]]]]]]]].
    + cbn. lia.
    + lia.
    + unfold len in *. rewrite length_app. cbn. lia.
  - intros H1 H2 E. unfold generate_speech.
    assert (Ep : preprocess_text text 500 = preprocess_text text' 500).
    { unfold preprocess_text.
      destruct (Z.ltb_spec 500 (len (join [space] (split_ws text))));
        [|lia].
      destruct (Z.ltb_spec 500 (len (join [space] (split_ws text'))));
        [|lia].
      unfold slice_to. cbn [Z.leb Z.compare].
      change (Z.to_nat 500) with 500%nat. now rewrite E. }
    now rewrite Ep.
Qed.

Lemma generate_speech_cuts_at_500_witness :
  generate_speech Z unit (stub [1; 2]%Z) 24000
                  (repeat "a"%char 500 ++ txt " tail one") None
  = generate_speech Z unit (stub [1; 2]%Z) 24000
                    (repeat "a"%char 500 ++ txt " another tail") None.
Proof.
  apply (proj2 (generate_speech_cuts_at_500 (stub [1; 2]%Z) 24000 None
                  (repeat "a"%char 500 ++ txt " tail one")
                  (repeat "a"%char 500 ++ txt " another tail")));
    vm_compute; reflexivity.
Defined.

End EnginePreprocessAgain.

(** ** [TTSEngine.split_text], again *)

Section SplitTextAgain.

Lemma sentence_like_not_nil (x : pystr) : sentence_like x -> x <> [].
Proof. intros [_ [y ->]]. now destruct y. Qed.

Lemma sentences_of_like (text : pystr) :
  Forall sentence_like (sentences_of text).
Proof.
  unfold sentences_of. apply Forall_forall. intros s H.
  apply in_map_iff in H as [x [<- Hx]].
  apply filter_In in Hx as [_ Hx].
  assert (Hne : strip x <> [])
    by (intros E; rewrite E in Hx; discriminate).
  split; [|now exists (strip x)].
  rewrite starts_ws_snoc by assumption. apply starts_ws_lstrip.
Qed.

Lemma strip_sentence_like (g : pystr) :
  sentence_like g -> strip g = g /\ strip (space :: g) = g.
Proof.
  intros [Hs [y ->]]. unfold strip. split.
  - rewrite rstrip_snoc_nonspace by reflexivity. now apply lstrip_id.
  - change (space :: y ++ [dot]) with ((space :: y) ++ [dot]).
    rewrite rstrip_snoc_nonspace by reflexivity.
    cbn [app lstrip].
    assert (E : isspace space = true) by reflexivity. rewrite E.
    now apply lstrip_id.
Qed.

Lemma sentence_like_app (g s : pystr) :
  sentence_like g -> sentence_like s -> sentence_like (g ++ space :: s).
Proof.
  intros Hg [_ [y ->]]. split.
  - pose proof (sentence_like_not_nil g Hg). destruct Hg as [Hs _].
    now destruct g.
  - exists (g ++ space :: y). now rewrite <- app_assoc.
Qed.

Lemma after_first_snoc (l : list pystr) (x : pystr) :
  after_first (l ++ [x]) = space :: join [space] (l ++ [x]).
Proof. now destruct l. Qed.

Lemma join_snoc (l : list pystr) (x : pystr) :
  l <> [] -> join [space] (l ++ [x]) = join [space] l ++ space :: x.
Proof.
  induction l as [|w l IH]; intros H; [contradiction|].
  change ((w :: l) ++ [x]) with (w :: (l ++ [x])).
  rewrite !join_cons, after_first_snoc.
  destruct l as [|w' l].
  - cbn. now rewrite app_nil_r.
  - rewrite IH by discriminate. cbn [after_first].
    now rewrite <- app_assoc.
Qed.

Lemma join_snoc_app (l : list pystr) (x y : pystr) :
  join [space] (l ++ [x ++ y]) = join [space] (l ++ [x]) ++ y.
Proof.
  destruct l as [|w l]; [reflexivity|].
  rewrite !join_snoc by discriminate. now rewrite <- !app_assoc.
Qed.

Lemma flush_packed (chunks : list pystr) (cur : pystr) (done : list pystr) :
  packed chunks cur done ->
  Forall sentence_like (flush chunks cur)
  /\ join [space] (flush chunks cur) = join [space] done.
Proof.
  intros [Hc [[-> [-> ->]]|[g [Hg [Hcur [Hd Hj]]]]]];
    [split; [constructor | reflexivity]|].
  destruct (strip_sentence_like g Hg) as [E1 E2].
  pose proof (sentence_like_not_nil g Hg) as Hne.
  assert (Ef : flush chunks cur = chunks ++ [g]).
  { unfold flush. destruct Hcur as [->| ->].
    - destruct g; [contradiction|]. cbn [truthy]. now rewrite E1.
    - cbn [truthy]. now rewrite E2. }
  rewrite Ef. split; [|assumption].
  apply Forall_app. split; [assumption | now constructor].
Qed.

Lemma pack_packed (m : Z) (chunks : list pystr) (cur s : pystr)
      (done : list pystr) :
  sentence_like s -> packed chunks cur done ->
  packed (fst (pack m (chunks, cur) s)) (snd (pack m (chunks, cur) s))
         (done ++ [s]).
Proof.
  intros Hs Hp. unfold pack.
  destruct (len cur + len s <=? m)%Z; cbn [fst snd].
  - destruct Hp as [Hc [[-> [-> ->]]|[g [Hg [Hcur [Hd Hj]]]]]].
    + split; [constructor|]. right. exists s.
      split; [assumption|]. split; [now right|].
      split; [discriminate | reflexivity].
    + split; [assumption|]. right. exists (g ++ space :: s).
      split; [now apply sentence_like_app|].
      split; [destruct Hcur as [->| ->]; [now left | now right]|].
      split; [now destruct done|].
      now rewrite join_snoc_app, Hj, join_snoc.
  - destruct (flush_packed _ _ _ Hp) as [Hf Hj].
    split; [assumption|]. right. exists s.
    split; [assumption|]. split; [now left|].
    split; [now destruct done|].
    destruct Hp as [_ [[-> [-> ->]]|[g [Hg [Hcur [Hd _]]]]]];
      [reflexivity|].
    assert (Hne : flush chunks cur <> []).
    { intros E. rewrite E in Hj. cbn in Hj. symmetry in Hj.
      destruct done as [|d done]; [contradiction|].
      unfold flush in E. pose proof (sentence_like_not_nil g Hg).
      destruct Hcur as [->| ->];
        [destruct g; [contradiction|]|]; cbn [truthy] in E;
        now destruct chunks. }
    now rewrite !join_snoc, Hj.
Qed.

Lemma fold_pack_packed (m : Z) (l : list pystr) :
  Forall sentence_like l ->
  forall chunks cur done,
    packed chunks cur done ->
    packed (fst (fold_left (pack m) l (chunks, cur)))
           (snd (fold_left (pack m) l (chunks, cur)))
           (done ++ l).
Proof.
  induction 1 as [|s l Hs _ IH]; intros chunks cur done Hp.
  - now rewrite app_nil_r.
  - cbn [fold_left].
    pose proof (pack_packed m chunks cur s done Hs Hp) as Hp'.
    destruct (pack m (chunks, cur) s) as [chunks' cur'].
    replace (done ++ s :: l) with ((done ++ [s]) ++ l)
      by now rewrite <- app_assoc.
    now apply IH.
Qed.

Lemma split_text_packed (text : pystr) (m : Z) :
  Forall sentence_like (split_text text m)
  /\ join [space] (split_text text m) = join [space] (sentences_of text).
Proof.
  unfold split_text.
  assert (H0 : packed [] [] []) by (split; [constructor | now left]).
  set (st := fold_left (pack m) (sentences_of text) ([], [])).
  assert (H : packed (fst st) (snd st) (sentences_of text))
    by exact (fold_pack_packed m (sentences_of text)
                (sentences_of_like text) [] [] [] H0).
  destruct st as [chunks cur]. now apply flush_packed.
Qed.

(** Chunking loses nothing and keeps the order: whatever the budget, the
    chunks joined by single spaces are the sentences joined by single
    spaces. *)
Theorem split_text_keeps_sentences (text : pystr) (max_chunk_length : Z) :
  join [space] (split_text text max_chunk_length)
  = join [space] (sentences_of text).
Proof. apply split_text_packed. Qed.

(** Every chunk is ready to be spoken: it is not empty, has no whitespace
    in front and ends in a period. *)
Theorem split_text_chunks_end_in_period (text : pystr)
        (max_chunk_length : Z) :
  Forall (fun chunk => chunk <> []
                       /\ starts_ws chunk = false
                       /\ last_char chunk = Some dot)
         (split_text text max_chunk_length).
Proof.
  destruct (split_text_packed text max_chunk_length) as [H _].
  eapply Forall_impl; [|exact H]. intros c Hc.
  split; [now apply sentence_like_not_nil|].
  destruct Hc as [Hs [y ->]]. split; [assumption | apply last_char_snoc].
Qed.

End SplitTextAgain.

(** ** Chunked synthesis with any synthesis capability *)

Section ChunkedSynthesis.

Context {sample voice : Type}.
Variable synthesize : pystr -> option voice -> result (list sample).
Variable rate : Z.
Variable v : option voice.

(** What a successful run of the loop has done. *)
Lemma synthesize_chunks_inv (chunks : list pystr) :
  forall acc r acc' r',
    synthesize_chunks sample voice synthesize rate v chunks acc r
    = Ok (acc', r') ->
    exists ws,
      Forall2 (fun c w => synthesize c v = Ok w) chunks ws
      /\ acc' = acc ++ ws
      /\ r' = match r, chunks with
              | None, _ :: _ => Some rate
              | _, _ => r
              end.
Proof.
  induction chunks as [|c chunks IH]; intros acc r acc' r' H.
  - cbn in H. injection H as <- <-. exists [].
    split; [constructor|]. split; [now rewrite app_nil_r | now destruct r].
  - cbn [synthesize_chunks] in H.
    destruct (synthesize c v) as [w|e] eqn:Ec; [|discriminate].
    cbn [bind] in H. apply IH in H as [ws [H2 [-> ->]]].
    exists (w :: ws). split; [now constructor|].
    split; [now rewrite <- app_assoc | now destruct r, chunks].
Qed.

(** The loop stops at the first chunk that fails. *)
Lemma synthesize_chunks_raise (pre : list pystr) (ws : list (list sample)) :
  Forall2 (fun c w => synthesize c v = Ok w) pre ws ->
  forall c post e acc r,
    synthesize c v = Raise e ->
    synthesize_chunks sample voice synthesize rate v (pre ++ c :: post) acc r
    = Raise e.
Proof.
  induction 1 as [|c0 w pre ws Hc _ IH]; intros c post e acc r He.
  - cbn. now rewrite He.
  - cbn [app synthesize_chunks]. rewrite Hc. cbn [bind]. now apply IH.
Qed.

(** The chunked path succeeds exactly when there is at least one chunk and
    every chunk is synthesised; its result is then the chunk waveforms
    concatenated in chunk order, without gap or overlap, at the sample rate
    of the model. *)
Theorem chunked_synthesis_result (text : pystr) (full : list sample)
        (r : option Z) :
  _generate_long_speech sample voice synthesize rate text v = Ok (full, r)
  <-> exists ws,
        Forall2 (fun c w => synthesize c v = Ok w) (split_text text 250) ws
        /\ ws <> []
        /\ full = concat ws
        /\ r = Some rate.
Proof.
  unfold _generate_long_speech. split.
  - intros H.
    destruct (synthesize_chunks _ _ _ _ _ _ _ _) as [[acc' r']|e] eqn:E;
      [|discriminate].
    apply synthesize_chunks_inv in E as [ws [H2 [-> ->]]].
    cbn [bind app] in H. destruct ws as [|w ws]; [discriminate|].
    cbn [np_concatenate bind] in H. injection H as <- <-.
    exists (w :: ws). split; [assumption|]. split; [discriminate|].
    split; [reflexivity|].
    inversion H2; subst. reflexivity.
  - intros [ws [H2 [Hne [-> ->]]]].
    rewrite (synthesize_chunks_ok _ _ _ _ _ H2). cbn [bind app].
    destruct ws as [|w ws]; [contradiction|].
    inversion H2; subst. reflexivity.
Qed.

(** A failure of the synthesis on any chunk aborts the whole request with
    that failure, the chunks before it being discarded, and no file is
    touched. *)
Theorem chunk_failure_aborts (to_int16 : list sample -> list Z) (h : host)
        (text output_path : pystr) (pre post : list pystr) (c : pystr)
        (ws : list (list sample)) (e : exn) :
  (250 < len (preprocess_text text 500))%Z ->
  split_text (preprocess_text text 500) 250 = pre ++ c :: post ->
  Forall2 (fun c w => synthesize c v = Ok w) pre ws ->
  synthesize c v = Raise e ->
  generate_speech sample voice synthesize rate text v = Raise e
  /\ text_to_speech_file sample voice synthesize rate to_int16 h text
                         output_path v
     = ([], Raise e).
Proof.
  intros Hlong Hsplit Hpre He.
  assert (Hg : generate_speech sample voice synthesize rate text v
               = Raise e).
  { unfold generate_speech.
    destruct (Z.ltb_spec 250 (len (preprocess_text text 500))); [|lia].
    unfold _generate_long_speech. rewrite Hsplit.
    now rewrite (synthesize_chunks_raise pre ws Hpre c post e). }
  split; [assumption|]. unfold text_to_speech_file. now rewrite Hg.
Qed.

(** Whichever path it takes, a successful [generate_speech] reports the
    sample rate of the model, never [None]. *)
Theorem generate_speech_sample_rate (text : pystr) (w : list sample)
        (r : option Z) :
  generate_speech sample voice synthesize rate text v = Ok (w, r) ->
  r = Some rate.
Proof.
  unfold generate_speech.
  destruct (250 <? len (preprocess_text text 500))%Z.
  - unfold _generate_long_speech. intros H.
    destruct (synthesize_chunks _ _ _ _ _ _ _ _) as [[acc' r']|e] eqn:E;
      [|discriminate].
    apply synthesize_chunks_inv in E as [ws [H2 [-> ->]]].
    cbn [bind app] in H. destruct ws as [|w0 ws]; [discriminate|].
    cbn [np_concatenate bind] in H. injection H as _ <-.
    inversion H2; subst. reflexivity.
  - unfold generate_direct.
    destruct (synthesize _ v); cbn [bind]; [|discriminate].
    now intros [= _ <-].
Qed.

End ChunkedSynthesis.

Lemma chunked_synthesis_result_witness :
  _generate_long_speech Z unit (stub [7; 8]%Z) 16000 (txt "One. Two!") None
  = Ok ([7; 8]%Z, Some 16000%Z).
Proof.
  apply (proj2 (chunked_synthesis_result (stub [7; 8]%Z) 16000 None
                  (txt "One. Two!") [7; 8]%Z (Some 16000%Z))).
  exists [[7; 8]%Z]. repeat split; [|discriminate].
  repeat constructor.
Defined.

Lemma chunk_failure_aborts_witness :
  let fails_on_b : pystr -> option unit -> result (list Z) :=
    fun c _ => if starts_with (txt "b") c then Raise SynthesisError
               else Ok [1]%Z in
  let text := repeat "a"%char 200 ++ txt ". " ++ repeat "b"%char 200 in
  text_to_speech_file Z unit fails_on_b 16000 (fun a => a)
                      host_without_pydub text (txt "out.wav") None
  = ([], Raise SynthesisError).
Proof.
  intros fails_on_b text.
  apply (proj2 (chunk_failure_aborts fails_on_b 16000 None (fun a => a)
                  host_without_pydub text (txt "out.wav")
                  [repeat "a"%char 200 ++ [dot]] []
                  (repeat "b"%char 200 ++ [dot]) [[1]%Z] SynthesisError
                  ltac:(vm_compute; reflexivity)
                  ltac:(vm_compute; reflexivity)
                  ltac:(repeat constructor)
                  ltac:(vm_compute; reflexivity))).
Defined.

Lemma generate_speech_sample_rate_witness :
  generate_speech Z unit (stub [7; 8]%Z) 16000 (txt "Hello") None
  = Ok ([7; 8]%Z, Some 16000%Z)
  /\ Some 16000%Z = Some 16000%Z.
Proof.
  split; [reflexivity|].
  apply (generate_speech_sample_rate (voice := unit) (stub [7; 8]%Z) 16000
           None (txt "Hello") [7; 8]%Z (Some 16000%Z)).
  reflexivity.
Defined.

(** ** [TTSEngine.save_audio], again *)

Section AudioExportAgain.

Context {sample : Type}.
Variable to_int16 : list sample -> list Z.

Ltac save_audio_cases H :=
  unfold save_audio, write_wav in H;
  repeat match type of H with
         | context [if ?b then _ else _] => destruct b eqn:?
         end;
  injection H as <- <-;
  repeat match goal with
         | Hb : negb _ = true |- _ => apply negb_true_iff in Hb
         | Hb : negb _ = false |- _ => apply negb_false_iff in Hb
         end.

(** The intermediate WAV file of the MP3 route is removed on every way out:
    after a successful export, after the fallback and after a failed write;
    on every other route no file is removed at all. *)
Theorem save_audio_removes_temp (h : host) (audio : list sample) (r : Z)
        (p : pystr) (evs : list event) (res : result returned) :
  save_audio sample to_int16 h audio (Some r) p = (evs, res) ->
  can_mkdir h p = true ->
  (lower (path_suffix p) = txt ".mp3" -> PYDUB_AVAILABLE h = true ->
   In (Removed (temp_wav_path h)) evs)
  /\ (lower (path_suffix p) <> txt ".mp3" \/ PYDUB_AVAILABLE h = false ->
      forall q, ~ In (Removed q) evs).
Proof.
  intros H Hdir. split.
  - intros Hmp3 Hpy. save_audio_cases H;
      try discriminate; try contradiction; try congruence;
      cbn; auto 10.
  - intros Hnot q. save_audio_cases H;
      try discriminate; try congruence;
      try (destruct Hnot; congruence);
      cbn; intros Hin;
      repeat (destruct Hin as [Hin|Hin]; [discriminate|]); exact Hin.
Qed.

(** Nothing is lost on the way to the file: every WAV written, the
    intermediate one included, holds the whole converted array at the given
    rate; and a call that returns has produced its file, the MP3 at the
    requested path or a WAV at the requested path or at that path with the
    suffix replaced. *)
Theorem save_audio_writes_all_samples (h : host) (audio : list sample)
        (r : Z) (p : pystr) (evs : list event) (res : result returned) :
  save_audio sample to_int16 h audio (Some r) p = (evs, res) ->
  (forall q r' d, In (WroteWav q r' d) evs ->
                  r' = r /\ d = to_int16 audio)
  /\ (forall x, res = Ok x ->
        In (ExportedMp3 p) evs
        \/ In (WroteWav p r (to_int16 audio)) evs
        \/ In (WroteWav (with_suffix p (txt ".wav")) r (to_int16 audio))
              evs).
Proof.
  intros H. split.
  - intros q r' d Hin. save_audio_cases H; cbn in Hin;
      repeat (destruct Hin as [Hin|Hin];
              [try discriminate; injection Hin as <- <- <-; now split|]);
      destruct Hin.
  - intros x Hx. save_audio_cases H; try discriminate; cbn; auto 10.
Qed.

End AudioExportAgain.

Lemma save_audio_removes_temp_witness :
  In (Removed (txt "/tmp/tmp0.wav"))
     (fst (save_audio Z (fun a => a) host_without_encoder [3; 4]%Z
                      (Some 8000%Z) (txt "a/b.MP3"))).
Proof.
  apply (proj1 (save_audio_removes_temp (fun a => a) host_without_encoder
                  [3; 4]%Z 8000 (txt "a/b.MP3") _ _
                  ltac:(vm_compute; reflexivity) eq_refl));
    reflexivity.
Defined.

Lemma save_audio_writes_all_samples_witness :
  In (WroteWav (txt "a/b.wav") 8000 [3; 4]%Z)
     (fst (save_audio Z (fun a => a) host_without_pydub [3; 4]%Z
                      (Some 8000%Z) (txt "a/b.mp3"))).
Proof.
  destruct (proj2 (save_audio_writes_all_samples (fun a => a)
                     host_without_pydub [3; 4]%Z 8000 (txt "a/b.mp3") _ _
                     ltac:(vm_compute; reflexivity)) None eq_refl)
    as [H|[H|H]].
  - cbn in H. repeat (destruct H as [H|H]; [discriminate|]). destruct H.
  - cbn in H. repeat (destruct H as [H|H]; [discriminate|]). destruct H.
  - exact H.
Defined.


(** ** The fallback path *)

Section FallbackPath.

Lemma rfind_range (c : ascii) (s : pystr) :
  (-1 <= rfind c s < len s)%Z.
Proof.
  unfold len. induction s as [|d s IH]; cbn [rfind List.length]; [lia|].
  destruct (Z.leb_spec 0 (rfind c s)); [lia|].
  destruct (Ascii.eqb d c); lia.
Qed.

Lemma rfind_app (c : ascii) (a b : pystr) :
  rfind c (a ++ b)
  = if (0 <=? rfind c b)%Z then (len a + rfind c b)%Z else rfind c a.
Proof.
  unfold len. induction a as [|d a IH]; cbn [app rfind List.length].
  - destruct (Z.leb_spec 0 (rfind c b)); [lia|].
    pose proof (rfind_range c b). lia.
  - rewrite IH. destruct (Z.leb_spec 0 (rfind c b)).
    + destruct (Z.leb_spec 0 (Z.of_nat (List.length a) + rfind c b)); lia.
    + reflexivity.
Qed.

Lemma rfind_after_last (c : ascii) (s : pystr) :
  rfind c (skipn (Z.to_nat (rfind c s + 1)) s) = (-1)%Z.
Proof.
  pose proof (rfind_app c (firstn (Z.to_nat (rfind c s + 1)) s)
                (skipn (Z.to_nat (rfind c s + 1)) s)) as H.
  rewrite firstn_skipn in H.
  pose proof (rfind_range c s).
  pose proof (rfind_range c (skipn (Z.to_nat (rfind c s + 1)) s)).
  destruct (Z.leb_spec 0 (rfind c (skipn (Z.to_nat (rfind c s + 1)) s)));
    [|lia].
  unfold len in *. rewrite length_firstn in H. lia.
Qed.

Lemma with_suffix_wav_shape (p : pystr) :
  path_suffix p <> [] ->
  exists q,
    p = q ++ path_suffix p
    /\ with_suffix p (txt ".wav") = q ++ txt ".wav"
    /\ path_suffix (with_suffix p (txt ".wav")) = txt ".wav".
Proof.
  intros Hsuf. unfold with_suffix.
  set (j := Z.to_nat (rfind "/"%char p + 1)).
  assert (Hname : path_name p = skipn j p) by reflexivity.
  pose proof (rfind_after_last "/"%char p) as Hnoslash. fold j in Hnoslash.
  unfold path_suffix in *. rewrite Hname in *.
  set (name := skipn j p) in *.
  set (i := rfind dot name) in *.
  destruct ((0 <? i) && (i <? len name - 1))%Z eqn:Hi; [|contradiction].
  apply andb_true_iff in Hi as [Hi1 Hi2].
  apply Z.ltb_lt in Hi1, Hi2.
  set (stem := firstn (Z.to_nat i) name).
  assert (Estem : len stem = i)
    by (unfold stem, len in *; rewrite length_firstn; lia).
  assert (Ename : name = stem ++ skipn (Z.to_nat i) name)
    by (unfold stem; now rewrite firstn_skipn).
  assert (Ep : p = (firstn j p ++ stem) ++ skipn (Z.to_nat i) name).
  { rewrite <- app_assoc, <- Ename. unfold name.
    now rewrite firstn_skipn. }
  assert (Eq : firstn (List.length p
                       - List.length (skipn (Z.to_nat i) name)) p
               = firstn j p ++ stem).
  { rewrite Ep at 1 2. rewrite length_app, Nat.add_sub.
    rewrite <- (Nat.add_0_r (List.length (firstn j p ++ stem))).
    rewrite firstn_app_2. cbn. apply app_nil_r. }
  rewrite Eq. exists (firstn j p ++ stem).
  split; [exact Ep|]. split; [reflexivity|].
  (* the name and the suffix of the new path *)
  assert (Hs1 : rfind "/"%char stem = (-1)%Z).
  { pose proof (rfind_app "/"%char stem (skipn (Z.to_nat i) name)) as H.
    rewrite <- Ename, Hnoslash in H.
    pose proof (rfind_range "/"%char (skipn (Z.to_nat i) name)).
    pose proof (rfind_range "/"%char stem).
    destruct (Z.leb_spec 0 (rfind "/"%char (skipn (Z.to_nat i) name)));
      lia. }
  assert (Hj : rfind "/"%char ((firstn j p ++ stem) ++ txt ".wav")
               = rfind "/"%char p).
  { rewrite <- app_assoc, rfind_app.
    assert (E : rfind "/"%char (stem ++ txt ".wav") = (-1)%Z)
      by (rewrite rfind_app; cbn; exact Hs1).
    rewrite E. cbn [Z.leb Z.compare].
    pose proof (rfind_app "/"%char (firstn j p) name) as H.
    unfold name in H at 1. rewrite firstn_skipn, Hnoslash in H.
    cbn [Z.leb Z.compare] in H. now rewrite H. }
  unfold path_name. rewrite Hj. fold j.
  assert (Ej : List.length (firstn j p) = j).
  { rewrite length_firstn. pose proof (rfind_range "/"%char p).
    unfold j, len in *. lia. }
  assert (Ename' : skipn j ((firstn j p ++ stem) ++ txt ".wav")
                   = stem ++ txt ".wav").
  { rewrite <- app_assoc, skipn_app, Ej, Nat.sub_diag.
    rewrite <- Ej at 1. now rewrite skipn_all. }
  rewrite Ename'.
  assert (Ei : rfind dot (stem ++ txt ".wav") = i)
    by (rewrite rfind_app; cbn; lia).
  rewrite Ei.
  assert (El : len (stem ++ txt ".wav") = (i + 4)%Z)
    by (unfold len in *; rewrite length_app; cbn; lia).
  rewrite El.
  destruct (Z.ltb_spec 0 i); [|lia].
  destruct (Z.ltb_spec i (i + 4 - 1)); [|lia]. cbn [andb].
  rewrite skipn_app.
  replace (Z.to_nat i) with (List.length stem) by (unfold len in *; lia).
  now rewrite skipn_all, Nat.sub_diag.
Qed.

(** When the MP3 cannot be produced, the file is written beside the
    requested one: for a path with a suffix, [with_suffix] keeps directory
    and stem, puts [".wav"] in place of the old suffix, and the new path has
    the suffix [".wav"]. *)
Theorem with_suffix_wav (p : pystr) :
  path_suffix p <> [] ->
  exists q,
    p = q ++ path_suffix p
    /\ with_suffix p (txt ".wav") = q ++ txt ".wav"
    /\ path_suffix (with_suffix p (txt ".wav")) = txt ".wav".
Proof. apply with_suffix_wav_shape. Qed.

Lemma rfind_at_end (c : ascii) (s : pystr) :
  s <> [] -> rfind c s = (len s - 1)%Z -> last_char s = Some c.
Proof.
  intros Hne H. destruct (exists_last Hne) as [a [d E]]. subst s.
  rewrite last_char_snoc. rewrite rfind_app in H.
  unfold len in H. rewrite length_app in H. cbn [rfind List.length] in H.
  pose proof (rfind_range c a). unfold len in *.
  destruct (Ascii.eqb_spec d c) as [Hd|Hd]; [now rewrite Hd|].
  cbn [Z.leb Z.compare] in H. lia.
Qed.

(** The suffix of a path that ends in [".mp3"] after a file name stem. *)
Lemma path_suffix_mp3 (x : pystr) :
  x <> [] -> last_char x <> Some "/"%char ->
  path_suffix (x ++ txt ".mp3") = txt ".mp3".
Proof.
  intros Hne Hlast. unfold path_suffix, path_name.
  assert (Ej : rfind "/"%char (x ++ txt ".mp3") = rfind "/"%char x)
    by (rewrite rfind_app; reflexivity).
  rewrite Ej. pose proof (rfind_range "/"%char x) as Hr.
  assert (Hj : (rfind "/"%char x + 1 < len x)%Z).
  { destruct (Z.eq_dec (rfind "/"%char x) (len x - 1)) as [E|E]; [|lia].
    apply rfind_at_end in E; [contradiction | assumption]. }
  set (j := Z.to_nat (rfind "/"%char x + 1)) in *.
  assert (Ename : skipn j (x ++ txt ".mp3") = skipn j x ++ txt ".mp3").
  { rewrite skipn_app.
    replace (j - List.length x)%nat with 0%nat
      by (unfold j, len in *; lia).
    reflexivity. }
  rewrite Ename. set (stem := skipn j x).
  assert (Hstem : (1 <= len stem)%Z).
  { unfold stem, len in *. rewrite length_skipn. lia. }
  assert (Ei : rfind dot (stem ++ txt ".mp3") = len stem)
    by (rewrite rfind_app; cbn; lia).
  rewrite Ei.
  assert (El : len (stem ++ txt ".mp3") = (len stem + 4)%Z)
    by (unfold len; rewrite length_app; cbn; lia).
  rewrite El.
  destruct (Z.ltb_spec 0 (len stem)); [|lia].
  destruct (Z.ltb_spec (len stem) (len stem + 4 - 1)); [|lia]. cbn [andb].
  rewrite skipn_app. unfold len. rewrite Nat2Z.id.
  now rewrite skipn_all, Nat.sub_diag.
Qed.

Lemma with_suffix_wav_witness :
  exists q,
    txt "audio_output/3f2a.mp3" = q ++ path_suffix (txt "audio_output/3f2a.mp3")
    /\ with_suffix (txt "audio_output/3f2a.mp3") (txt ".wav")
       = q ++ txt ".wav"
    /\ path_suffix (with_suffix (txt "audio_output/3f2a.mp3") (txt ".wav"))
       = txt ".wav".
Proof. apply with_suffix_wav. vm_compute. discriminate. Defined.

End FallbackPath.

(** ** The synthesis endpoint *)

Section EndpointFacts.

Context {sample voice : Type}.
Variable synthesize : pystr -> option voice -> result (list sample).
Variable rate : Z.
Variable to_int16 : list sample -> list Z.

Lemma estimate_duration_nonspace (p : pystr) :
  has_nonspace p = true ->
  exists n, (1 <= n)%nat /\ estimate_duration (PyStr p) None = PerMinute n 150.
Proof.
  intros H. destruct (clean_text_of_nonspace p H) as [Hc _].
  pose proof (split_ws_not_nil p H) as Hw.
  assert (Ew : split_ws (clean_text (PyStr p)) = split_ws p).
  { rewrite clean_text_join_split. apply split_ws_join, split_ws_tokens. }
  exists (List.length (split_ws p)). split.
  - destruct (split_ws p); [contradiction | cbn; lia].
  - unfold estimate_duration. rewrite Ew.
    destruct p as [|c p]; [discriminate|]. cbn [truthy negb].
    destruct (clean_text (PyStr (c :: p))); [contradiction|]. reflexivity.
Qed.

(** What a client gets with a success: the text that was synthesised, which
    is never empty and never longer than the configured maximum; a duration
    estimated from at least one word at 150 words per minute; and the URL
    built from the fresh id and the configured format, whatever file the
    engine wrote. *)
Theorem synthesize_endpoint_success (cfg : config) (h : host)
        (engine : result unit) (audio_id : pystr)
        (data : option (body voice)) (evs : list event)
        (url id text : pystr) (d : duration) :
  synthesize_endpoint sample voice synthesize rate to_int16 cfg h engine
                      audio_id data
  = (evs, Synthesized url id text d) ->
  id = audio_id
  /\ url = txt "/audio/" ++ audio_id ++ txt "." ++ AUDIO_FORMAT cfg
  /\ text <> []
  /\ (len text <= MAX_TEXT_LENGTH cfg)%Z
  /\ exists n, (1 <= n)%nat /\ d = PerMinute n 150.
Proof.
  unfold synthesize_endpoint. intros H.
  destruct data as [data|]; [|discriminate].
  destruct (text_value voice data) as [t|]; [|discriminate].
  destruct (validate_text t (MAX_TEXT_LENGTH cfg) None) as [ok msg] eqn:Ev.
  destruct ok; cbn [negb] in H; [|discriminate].
  assert (Emsg : msg = None).
  { unfold validate_text in Ev.
    repeat match type of Ev with
           | context [if ?b then _ else _] => destruct b
           end; now inversion Ev. }
  subst msg.
  destruct (validated_text_shape t _ None Ev) as [p [Ep [Hne [Hlen Hs]]]].
  rewrite Ep in H. destruct engine; [|discriminate].
  destruct (text_to_speech_file _ _ _ _ _ _ _ _ _) as [done [x|e]];
    [|discriminate].
  injection H as <- <- <- <- <-.
  repeat split; try assumption.
  apply estimate_duration_nonspace. now apply has_nonspace_head.
Qed.

End EndpointFacts.

Lemma synthesize_endpoint_success_witness :
  let cfg := {| MAX_TEXT_LENGTH := 2000; AUDIO_FORMAT := txt "wav";
                AUDIO_OUTPUT_DIR := txt "audio_output" |} in
  let data := {| text_value := Some (PyStr (txt " Dr.  Who "));
                 voice_preset_value := @None unit |} in
  txt "Doctor Who" <> []
  /\ (len (txt "Doctor Who") <= MAX_TEXT_LENGTH cfg)%Z
  /\ exists n, (1 <= n)%nat /\ PerMinute 2 150 = PerMinute n 150.
Proof.
  intros cfg data.
  apply (synthesize_endpoint_success (stub [5; 6]%Z) 24000 (fun a => a)
           cfg host_without_pydub (Ok tt) (txt "id1") (Some data)
           [EnsuredParent (txt "audio_output/id1.wav");
            WroteWav (txt "audio_output/id1.wav") 24000 [5; 6]%Z]
           (txt "/audio/id1.wav") (txt "id1") (txt "Doctor Who")
           (PerMinute 2 150)).
  vm_compute. reflexivity.
Defined.

Section EndpointFallback.

Context {sample voice : Type}.
Variable synthesize : pystr -> option voice -> result (list sample).
Variable rate : Z.
Variable to_int16 : list sample -> list Z.

(** With the format ["mp3"] configured on a host without pydub, a success
    still answers with the URL of the MP3, although no MP3 was produced:
    the one file written is the WAV beside it. *)
Theorem synthesize_endpoint_fallback_url (cfg : config) (h : host)
        (engine : result unit) (audio_id : pystr)
        (data : option (body voice)) (evs : list event)
        (url id text : pystr) (d : duration) :
  AUDIO_FORMAT cfg = txt "mp3" ->
  PYDUB_AVAILABLE h = false ->
  audio_id <> [] ->
  last_char audio_id <> Some "/"%char ->
  synthesize_endpoint sample voice synthesize rate to_int16 cfg h engine
                      audio_id data
  = (evs, Synthesized url id text d) ->
  url = txt "/audio/" ++ audio_id ++ txt ".mp3"
  /\ exists r samples,
       evs = [EnsuredParent
                (AUDIO_OUTPUT_DIR cfg ++ txt "/" ++ audio_id ++ txt ".mp3");
              WroteWav
                (AUDIO_OUTPUT_DIR cfg ++ txt "/" ++ audio_id ++ txt ".wav")
                r samples].
Proof.
  intros Hfmt Hpy Hid Hlast. unfold synthesize_endpoint. intros H.
  destruct data as [data|]; [|discriminate].
  destruct (text_value voice data) as [t|]; [|discriminate].
  destruct (validate_text t (MAX_TEXT_LENGTH cfg) None) as [ok msg].
  destruct ok; cbn [negb] in H; [|discriminate].
  destruct (preprocess_for_tts t (MAX_TEXT_LENGTH cfg)) as [p|e];
    [|discriminate].
  destruct engine; [|discriminate].
  rewrite Hfmt in H.
  change (txt "." ++ txt "mp3") with (txt ".mp3") in H.
  set (x := AUDIO_OUTPUT_DIR cfg ++ txt "/" ++ audio_id).
  assert (Ex : AUDIO_OUTPUT_DIR cfg ++ txt "/" ++ audio_id ++ txt ".mp3"
               = x ++ txt ".mp3")
    by (unfold x; now rewrite <- !app_assoc).
  assert (Ew : AUDIO_OUTPUT_DIR cfg ++ txt "/" ++ audio_id ++ txt ".wav"
               = x ++ txt ".wav")
    by (unfold x; now rewrite <- !app_assoc).
  rewrite Ex in H. rewrite Ex, Ew.
  assert (Hx : x <> []).
  { unfold x. destruct (AUDIO_OUTPUT_DIR cfg); discriminate. }
  assert (Hxl : last_char x <> Some "/"%char).
  { unfold x. rewrite app_assoc, last_char_app; assumption. }
  pose proof (path_suffix_mp3 x Hx Hxl) as Hsuf.
  assert (Hwav : with_suffix (x ++ txt ".mp3") (txt ".wav")
                 = x ++ txt ".wav").
  { destruct (with_suffix_wav_shape (x ++ txt ".mp3")) as [q [Eq [Ew' _]]];
      [rewrite Hsuf; discriminate|].
    rewrite Hsuf in Eq. apply app_inv_tail in Eq. now rewrite Ew', Eq. }
  unfold text_to_speech_file in H.
  destruct (generate_speech _ _ _ _ _ _) as [[wave sr]|e]; [|discriminate].
  unfold save_audio, write_wav in H.
  rewrite Hsuf, Hpy, Hwav in H. cbn [negb] in H.
  destruct (negb (can_mkdir h (x ++ txt ".mp3"))); [discriminate|].
  destruct sr as [r|]; [|discriminate].
  change (lower (txt ".mp3")) with (txt ".mp3") in H.
  destruct (list_eq_dec ascii_dec (txt ".mp3") (txt ".mp3"));
    [|contradiction].
  destruct (can_write h (x ++ txt ".wav")); [|discriminate].
  injection H as <- <- _ _ _.
  split; [reflexivity|]. now exists r, (to_int16 wave).
Qed.

End EndpointFallback.

Lemma synthesize_endpoint_fallback_url_witness :
  let cfg := {| MAX_TEXT_LENGTH := 2000; AUDIO_FORMAT := txt "mp3";
                AUDIO_OUTPUT_DIR := txt "audio_output" |} in
  let data := {| text_value := Some (PyStr (txt "Hello world"));
                 voice_preset_value := @None unit |} in
  txt "/audio/id1.mp3" = txt "/audio/" ++ txt "id1" ++ txt ".mp3"
  /\ exists r samples,
       [EnsuredParent (txt "audio_output/id1.mp3");
        WroteWav (txt "audio_output/id1.wav") 24000 [5; 6]%Z]
       = [EnsuredParent
            (AUDIO_OUTPUT_DIR cfg ++ txt "/" ++ txt "id1" ++ txt ".mp3");
          WroteWav
            (AUDIO_OUTPUT_DIR cfg ++ txt "/" ++ txt "id1" ++ txt ".wav")
            r samples].
Proof.
  intros cfg data.
  apply (synthesize_endpoint_fallback_url (stub [5; 6]%Z) 24000
           (fun a => a) cfg host_without_pydub (Ok tt) (txt "id1")
           (Some data)
           [EnsuredParent (txt "audio_output/id1.mp3");
            WroteWav (txt "audio_output/id1.wav") 24000 [5; 6]%Z]
           (txt "/audio/id1.mp3") (txt "id1") (txt "Hello world")
           (PerMinute 2 150));
    try reflexivity; try discriminate.
Defined.

(** ** What chunking does to the terminators *)

Section ChunkTerminators.

Lemma In_lstrip (c : ascii) (s : pystr) : In c (lstrip s) -> In c s.
Proof.
  induction s as [|d s IH]; [trivial|]. cbn [lstrip].
  destruct (isspace d); [right; now apply IH | trivial].
Qed.

Lemma In_rstrip (c : ascii) (s : pystr) : In c (rstrip s) -> In c s.
Proof.
  induction s as [|d s IH]; [trivial|]. cbn [rstrip].
  destruct (rstrip s) as [|e r].
  - destruct (isspace d); [intros [] | intros [->|[]]; now left].
  - intros [->|H]; [now left | right; now apply IH].
Qed.

Lemma In_split_on (sep c : ascii) (s x : pystr) :
  In x (split_on sep s) -> In c x -> In c s.
Proof.
  revert x. induction s as [|d s IH]; intros x Hx Hc.
  - destruct Hx as [<-|[]]. destruct Hc.
  - cbn [split_on] in Hx. destruct (split_on sep s) as [|p ps].
    + destruct Hx as [<-|[]]. destruct Hc.
    + destruct (Ascii.eqb d sep).
      * destruct Hx as [<-|Hx]; [destruct Hc|].
        right. now apply (IH x).
      * destruct Hx as [<-|Hx].
        -- destruct Hc as [->|Hc]; [now left|].
           right. apply (IH p); [now left | assumption].
        -- right. apply (IH x); [now right | assumption].
Qed.

Lemma In_replace (a b c : ascii) (s : pystr) :
  In c (replace a b s) -> c = b \/ (c <> a /\ In c s).
Proof.
  unfold replace. intros H. apply in_map_iff in H as [d [<- Hd]].
  destruct (Ascii.eqb_spec d a); [now left | right; now split].
Qed.

Lemma sentences_of_marks (text s : pystr) (c : ascii) :
  In s (sentences_of text) -> In c s ->
  c <> "!"%char /\ c <> "?"%char.
Proof.
  unfold sentences_of. intros Hs Hc.
  apply in_map_iff in Hs as [x [<- Hx]].
  apply filter_In in Hx as [Hx _].
  apply in_app_or in Hc as [Hc|[<-|[]]]; [|split; discriminate].
  apply In_lstrip, In_rstrip in Hc.
  apply (In_split_on _ _ _ _ Hx) in Hc.
  apply In_replace in Hc as [->|[Hq Hc]]; [split; discriminate|].
  apply In_replace in Hc as [->|[He _]]; [split; discriminate|].
  now split.
Qed.

Lemma In_join (c : ascii) (l : list pystr) :
  In c (join [space] l) -> c = space \/ exists x, In x l /\ In c x.
Proof.
  induction l as [|w l IH]; [intros []|].
  rewrite join_cons. intros H. apply in_app_or in H as [H|H].
  - right. exists w. split; [now left | assumption].
  - destruct l as [|w' l']; [destruct H|].
    cbn [after_first] in H. destruct H as [<-|H]; [now left|].
    destruct (IH H) as [->|[x [Hx Hc]]]; [now left|].
    right. exists x. split; [now right | assumption].
Qed.

Lemma join_In (c : ascii) (x : pystr) (l : list pystr) :
  In x l -> In c x -> In c (join [space] l).
Proof.
  induction l as [|w l IH]; [intros []|].
  rewrite join_cons. intros [->|Hx] Hc; apply in_or_app; [now left|].
  right. destruct l as [|w' l']; [destruct Hx|].
  cbn [after_first]. right. now apply IH.
Qed.

(** The chunked path speaks with periods only: no chunk holds an
    exclamation or a question mark, whatever the text had. *)
Theorem split_text_drops_marks (text : pystr) (max_chunk_length : Z) :
  Forall (fun chunk => ~ In "!"%char chunk /\ ~ In "?"%char chunk)
         (split_text text max_chunk_length).
Proof.
  apply Forall_forall. intros chunk Hchunk.
  destruct (split_text_packed text max_chunk_length) as [_ Hj].
  assert (H : forall c, In c chunk -> c <> "!"%char /\ c <> "?"%char).
  { intros c Hc. pose proof (join_In c chunk _ Hchunk Hc) as Hin.
    rewrite Hj in Hin. apply In_join in Hin as [->|[s [Hs Hcs]]].
    - split; discriminate.
    - exact (sentences_of_marks text s c Hs Hcs). }
  split; intros Hc; apply H in Hc; tauto.
Qed.

End ChunkTerminators.

Lemma clean_text_fixes_collapsed_witness :
  clean_text (PyStr (txt "Hello big world")) = txt "Hello big world".
Proof. apply (proj2 (clean_text_fixes_collapsed _)). reflexivity. Defined.
